(** * unitd.js: measures, units and the operation registry

    A shallow embedding of [src/unitd.js] and the properties of it that the
    specification states.

    The library computes on JavaScript numbers.  The embedding is written
    over an interface of host numbers ([JSNumber]) and read at [binary64]:
    IEEE 754 double precision, the numbers the program runs on.

    A text is the sequence of the bytes of its UTF-8 encoding.

    JavaScript objects used as tables (the unit namespaces, the operation
    table, the prototype's methods) are finite maps; the properties the
    objects carry besides (those of every function object, the fields of an
    instance) are not part of them.  The embedding is the program where no
    registered name is such a property: [ordinary] says so of the names of
    unit types and units, [plain] of the names of operations, and the
    theorems are stated there. *)

From Stdlib Require Import ZArith QArith Qround String Ascii Floats Lia.
From stdpp Require Import base option gmap strings list.

Local Open Scope Z_scope.

(** * Host numbers *)

(** What a number is: NaN, an infinity, or a finite value, given as a sign
    ([true] is negative), a numerator and a denominator.  A finite zero keeps
    its sign. *)
Inductive view : Type :=
| CNaN
| CInf (neg : bool)
| CFin (neg : bool) (n : N) (d : positive).

Class JSNumber (number : Type) : Type := {
  NaN : number;
  infinity : bool -> number;
  (** the number nearest to [n/d], negated when the sign is set *)
  of_ratio : bool -> N -> positive -> number;
  classify : number -> view;
  add : number -> number -> number;
  sub : number -> number -> number;
  mul : number -> number -> number;
  div : number -> number -> number
}.

Declare Scope js_scope.
Delimit Scope js_scope with js.
Infix "+" := add : js_scope.
Infix "-" := sub : js_scope.
Infix "*" := mul : js_scope.
Infix "/" := div : js_scope.

(** Errors the program and the host raise. *)
Inductive Error : Type :=
| Err (message : string)     (* [throw new Error(message)] *)
| TypeError (message : string)
| RangeError (message : string).

Section Builtins.
Context {number : Type} {Num : JSNumber number}.

(** [isNaN(x)] for a number [x]. *)
Definition isNaN (x : number) : bool :=
  match classify x with CNaN => true | _ => false end.

Definition isFinite (x : number) : bool :=
  match classify x with CFin _ _ _ => true | _ => false end.

(** An integer literal of the source. *)
Definition lit (n : N) : number := of_ratio false n 1.

(** Comparison of two finite values [±n1/d1] and [±n2/d2]; the two zeros are
    equal. *)
Definition signed (neg : bool) (n : N) : Z :=
  if neg then - Z.of_N n else Z.of_N n.

Definition ratio_compare (s1 : bool) (n1 : N) (d1 : positive)
                         (s2 : bool) (n2 : N) (d2 : positive) : comparison :=
  (signed s1 n1 * Z.pos d2 ?= signed s2 n2 * Z.pos d1).

(** The order of numbers; [None] when an operand is NaN. *)
Definition compare (x y : number) : option comparison :=
  match classify x, classify y with
  | CNaN, _ | _, CNaN => None
  | CInf s1, CInf s2 =>
      Some (match s1, s2 with
            | true, false => Lt
            | false, true => Gt
            | _, _ => Eq
            end)
  | CInf s, CFin _ _ _ => Some (if s then Lt else Gt)
  | CFin _ _ _, CInf s => Some (if s then Gt else Lt)
  | CFin s1 n1 d1, CFin s2 n2 d2 => Some (ratio_compare s1 n1 d1 s2 n2 d2)
  end.

(** [x < y] and [x <= y]; both are false when an operand is NaN. *)
Definition lt (x y : number) : bool :=
  match compare x y with Some Lt => true | _ => false end.

Definition le (x y : number) : bool :=
  match compare x y with Some Lt | Some Eq => true | _ => false end.

Definition is_zero (neg : bool) (x : number) : bool :=
  match classify x with
  | CFin s 0%N _ => Bool.eqb s neg
  | _ => false
  end.

(** [Math.min(a, b)] and [Math.max(a, b)]: NaN when an operand is NaN, -0 is
    below +0, and of two equal operands the first is the result. *)
Definition Math_min (a b : number) : number :=
  if isNaN a || isNaN b then NaN
  else if is_zero false a && is_zero true b then b
  else if lt b a then b
  else a.

Definition Math_max (a b : number) : number :=
  if isNaN a || isNaN b then NaN
  else if is_zero true a && is_zero false b then b
  else if lt a b then b
  else a.

(** ** Decimal numerals *)

(** The number nearest to [±m * 10^e]. *)
Definition of_decimal (neg : bool) (m : N) (e : Z) : number :=
  match e with
  | Z0 => of_ratio neg m 1
  | Zpos p => of_ratio neg (m * 10 ^ Npos p) 1
  | Zneg p => of_ratio neg m (10 ^ p)
  end.

Definition is_digit (c : ascii) : bool :=
  let n := N_of_ascii c in ((48 <=? n) && (n <=? 57))%N.

Definition digit_value (c : ascii) : N := (N_of_ascii c - 48)%N.

(** The longest prefix of decimal digits, and what follows it. *)
Fixpoint span_digits (s : string) : list ascii * string :=
  match s with
  | String c r =>
      if is_digit c then let '(ds, rest) := span_digits r in (c :: ds, rest)
      else ([], s)
  | EmptyString => ([], s)
  end.

Definition digits_value (ds : list ascii) : N :=
  fold_left (fun acc c => (10 * acc + digit_value c)%N) ds 0%N.

Definition ascii_in (c : ascii) (cs : list ascii) : bool :=
  existsb (Ascii.eqb c) cs.

(** [ExponentPart]: [e] or [E], an optional sign and at least one digit, up
    to the end of the text. *)
Definition parse_exponent (s : string) : option Z :=
  match s with
  | EmptyString => Some 0
  | String c r =>
      if ascii_in c ["e"; "E"]%char then
        let '(neg, r) :=
          match r with
          | String "-" r' => (true, r')
          | String "+" r' => (false, r')
          | _ => (false, r)
          end in
        match span_digits r with
        | ((_ :: _) as ds, EmptyString) =>
            Some (if neg then - Z.of_N (digits_value ds) else Z.of_N (digits_value ds))
        | _ => None
        end
      else None
  end.

(** [StrUnsignedDecimalLiteral] without [Infinity]: digits, an optional
    fraction, an optional exponent; a digit is required before or after the
    point.  The result is a mantissa and a power of ten. *)
Definition parse_unsigned_decimal (s : string) : option (N * Z) :=
  let '(ip, r1) := span_digits s in
  let '(fp, r2) :=
    match r1 with
    | String "." r => span_digits r
    | _ => ([], r1)
    end in
  match ip ++ fp with
  | [] => None
  | ds =>
      match parse_exponent r2 with
      | Some e => Some (digits_value ds, e - Z.of_nat (length fp))
      | None => None
      end
  end.

(** The text of the given bytes. *)
Definition bytes (codes : list N) : string :=
  string_of_list_ascii (List.map ascii_of_N codes).

(** [StrWhiteSpaceChar]: the white space and the line terminators of the
    host, each in UTF-8: U+0009 to U+000D, U+0020, U+00A0, U+1680, U+2000 to
    U+200A, U+2028, U+2029, U+202F, U+205F, U+3000 and U+FEFF. *)
Definition white_space : list string :=
  List.map bytes
    [[9]; [10]; [11]; [12]; [13]; [32]; [194; 160]; [225; 154; 128];
     [226; 128; 128]; [226; 128; 129]; [226; 128; 130]; [226; 128; 131];
     [226; 128; 132]; [226; 128; 133]; [226; 128; 134]; [226; 128; 135];
     [226; 128; 136]; [226; 128; 137]; [226; 128; 138];
     [226; 128; 168]; [226; 128; 169]; [226; 128; 175]; [226; 129; 159];
     [227; 128; 128]; [239; 187; 191]]%N.

(** What follows [p] in [s], when [s] starts with [p]. *)
Fixpoint strip_prefix (p s : string) : option string :=
  match p, s with
  | EmptyString, _ => Some s
  | String a p', String b s' => if Ascii.eqb a b then strip_prefix p' s' else None
  | String _ _, EmptyString => None
  end.

(** What follows the first of the texts [ps] that [s] starts with. *)
Fixpoint strip_any (ps : list string) (s : string) : option string :=
  match ps with
  | [] => None
  | p :: rest =>
      match strip_prefix p s with
      | Some r => Some r
      | None => strip_any rest s
      end
  end.

(** [s] without the texts of [ps] it starts with; no text of [ps] is empty,
    so the length of [s] is fuel enough. *)
Fixpoint strip_all (fuel : nat) (ps : list string) (s : string) : string :=
  match fuel with
  | O => s
  | S fuel' =>
      match strip_any ps s with
      | Some r => strip_all fuel' ps r
      | None => s
      end
  end.

Definition trim_left (s : string) : string :=
  strip_all (String.length s) white_space s.

(** The white space at the end is the white space at the start of the
    bytes in reverse. *)
Definition trim_right (s : string) : string :=
  let r := String.rev s in
  String.rev (strip_all (String.length r) (List.map String.rev white_space) r).

Definition trim (s : string) : string := trim_right (trim_left s).

(** Digits of a literal in base 2, 8 or 16. *)
Definition radix_digit (c : ascii) : option N :=
  let n := N_of_ascii c in
  if is_digit c then Some (n - 48)%N
  else if ((97 <=? n) && (n <=? 102))%N then Some (n - 87)%N
  else if ((65 <=? n) && (n <=? 70))%N then Some (n - 55)%N
  else None.

Fixpoint parse_radix (base : N) (acc : N) (s : string) : option N :=
  match s with
  | EmptyString => Some acc
  | String c r =>
      match radix_digit c with
      | Some d => if (d <? base)%N then parse_radix base (base * acc + d)%N r else None
      | None => None
      end
  end.

Definition parse_non_decimal (s : string) : option N :=
  match s with
  | String "0" (String c (String _ _ as r)) =>
      if ascii_in c ["x"; "X"]%char then parse_radix 16 0 r
      else if ascii_in c ["o"; "O"]%char then parse_radix 8 0 r
      else if ascii_in c ["b"; "B"]%char then parse_radix 2 0 r
      else None
  | _ => None
  end.

(** [StringToNumber]: the text without the white space around it is empty
    (zero), a literal in base 2, 8 or 16, or a signed decimal literal or
    [Infinity]; any other text is NaN. *)
Definition StringToNumber (s : string) : number :=
  let t := trim s in
  match t with
  | EmptyString => lit 0
  | _ =>
      match parse_non_decimal t with
      | Some n => lit n
      | None =>
          let '(neg, u) :=
            match t with
            | String "-" r => (true, r)
            | String "+" r => (false, r)
            | _ => (false, t)
            end in
          if String.eqb u "Infinity" then infinity neg
          else match parse_unsigned_decimal u with
               | Some (m, e) => of_decimal neg m e
               | None => NaN
               end
      end
  end.

(** A numeric literal of the source, read as the host reads it. *)
Definition numeral (s : string) : number := StringToNumber s.

(** ** Rounding to significant digits *)

(** [ToIntegerOrInfinity] for a finite number: truncation. *)
Definition truncate (neg : bool) (n : N) (d : positive) : Z :=
  signed neg (n / Npos d).

(** The number of decimal digits of [n] (0 has one). *)
Fixpoint decimal_digits (fuel : nat) (n : N) : Z :=
  match fuel with
  | O => 1
  | S fuel' => if (n <? 10)%N then 1 else 1 + decimal_digits fuel' (n / 10)
  end.

Definition pow10 (e : Z) : Q :=
  match e with
  | Z0 => 1
  | Zpos p => inject_Z (10 ^ Zpos p)
  | Zneg p => 1 # (10 ^ p)
  end.

(** The exponent [e] with [10^e <= n/d < 10^(e+1)], for [n > 0]. *)
Definition decimal_exponent (n : N) (d : positive) : Z :=
  let e0 := decimal_digits (N.to_nat (N.size n)) n
            - decimal_digits (Pos.to_nat (Pos.size d)) (Npos d) in
  if Qle_bool (pow10 e0) (Z.of_N n # d) then e0 else e0 - 1.

(** The integer nearest to [q >= 0], the larger one of two. *)
Definition round_half_up (q : Q) : N :=
  Z.to_N (Qfloor (q + (1 # 2))).

(** [Number(x.toPrecision(precision))]: [x] rounded to so many significant
    decimal digits.  A value that is not finite is returned as it is; a
    precision outside 1..100 is a RangeError. *)
Definition Number_toPrecision (x precision : number) : Error + number :=
  match classify x with
  | CNaN => inr NaN
  | CInf s => inr (infinity s)
  | CFin s n d =>
      let in_range :=
        match classify precision with
        | CFin ps pn pd =>
            let p := truncate ps pn pd in
            if (1 <=? p) && (p <=? 100) then Some p else None
        | _ => None
        end in
      match in_range with
      | None => inl (RangeError "toPrecision() argument must be between 1 and 100")
      | Some p =>
          match n with
          | N0 => inr (lit 0)
          | _ =>
              let e := decimal_exponent n d in
              let k := round_half_up ((Z.of_N n # d) / pow10 (e - p + 1)) in
              inr (of_decimal s k (e - p + 1))
          end
      end
  end.

End Builtins.

(** ** IEEE 754 binary64 *)

Definition SF64_view (x : spec_float) : view :=
  match x with
  | S754_nan => CNaN
  | S754_infinity s => CInf s
  | S754_zero s => CFin s 0 1
  | S754_finite s m e =>
      match e with
      | Z0 => CFin s (Npos m) 1
      | Zpos p => CFin s (Npos m * 2 ^ Npos p) 1
      | Zneg p =>
          let g := Pos.gcd m (2 ^ p) in
          CFin s (Npos m / Npos g)
               (match (Npos (2 ^ p) / Npos g)%N with Npos q => q | N0 => 1%positive end)
      end
  end.

Definition SF64_of_ratio (neg : bool) (n : N) (d : positive) : spec_float :=
  match n with
  | N0 => S754_zero neg
  | Npos p => SFdiv prec emax (S754_finite neg p 0) (S754_finite false d 0)
  end.

#[global] Instance binary64 : JSNumber float := {|
  NaN := nan;
  infinity := fun neg => if neg then neg_infinity else PrimFloat.infinity;
  of_ratio := fun neg n d => SF2Prim (SF64_of_ratio neg n d);
  classify := fun x => SF64_view (Prim2SF x);
  add := PrimFloat.add;
  sub := PrimFloat.sub;
  mul := PrimFloat.mul;
  div := PrimFloat.div
|}.

(** * The program *)

Section Program.
Context {number : Type} {Num : JSNumber number}.

(** EMCAScript requires at least between 1 and 21 digits of precision; the
    program drops the limit to 15 digits. *)
Definition MAX_PRECISION : number := lit 15.
Definition MIN_PRECISION : number := lit 1.

(** A unit: the object [Unit.register] defines, created from the prototype
    of its type. *)
Record Unit : Type := {
  name : string;
  type : string;
  abbr : string;
  scale : number
}.

(** The fields of a [Measure] instance. *)
Record measure : Type := {
  val : number;
  raw : number;
  unit : Unit;
  precision : number
}.

(** Measures are objects: a value refers to one by its place in the heap. *)
Definition loc : Type := nat.

Inductive JSValue : Type :=
| VUndefined
| VNull
| VBoolean (b : bool)
| VNumber (n : number)
| VString (s : string)
| VMeasure (l : loc).

(** A binary operation on raw magnitudes. *)
Definition Fn : Type := number -> number -> number.

(** Listeners of the operation registry: the one the program subscribes,
    which mounts the operation on [Measure.prototype], and listeners of a
    consumer, which are known by what they are called with and by what the
    registry holds under the name when they are called. *)
Inductive Listener : Type :=
| Mount
| Observer (id : nat).

#[global] Instance Listener_eq_dec : EqDecision Listener.
Proof. solve_decision. Defined.

Record Call : Type := {
  call_listener : nat;
  call_name : string;
  call_func : Fn;
  call_sees : option Fn
}.

Record World : Type := {
  units : gmap string (gmap string Unit);   (* [Unit[type][name]] *)
  Measure_props : gset string;              (* [Measure[type]], alias of [Unit[type]] *)
  ops : gmap string Fn;                     (* [ops] of [Operations] *)
  listeners : list Listener;                (* [listeners] of [Operations] *)
  prototype : gmap string Fn;               (* [Measure.prototype[name]], by its [operation] *)
  heap : list measure;                      (* the [Measure] instances *)
  calls : list Call                         (* the calls of listeners so far *)
}.

Definition set_units (f : gmap string (gmap string Unit) -> gmap string (gmap string Unit))
    (w : World) : World :=
  {| units := f (units w); Measure_props := Measure_props w; ops := ops w;
     listeners := listeners w; prototype := prototype w; heap := heap w;
     calls := calls w |}.

Definition set_Measure_props (f : gset string -> gset string) (w : World) : World :=
  {| units := units w; Measure_props := f (Measure_props w); ops := ops w;
     listeners := listeners w; prototype := prototype w; heap := heap w;
     calls := calls w |}.

Definition set_ops (f : gmap string Fn -> gmap string Fn) (w : World) : World :=
  {| units := units w; Measure_props := Measure_props w; ops := f (ops w);
     listeners := listeners w; prototype := prototype w; heap := heap w;
     calls := calls w |}.

Definition set_listeners (f : list Listener -> list Listener) (w : World) : World :=
  {| units := units w; Measure_props := Measure_props w; ops := ops w;
     listeners := f (listeners w); prototype := prototype w; heap := heap w;
     calls := calls w |}.

Definition set_prototype (f : gmap string Fn -> gmap string Fn) (w : World) : World :=
  {| units := units w; Measure_props := Measure_props w; ops := ops w;
     listeners := listeners w; prototype := f (prototype w); heap := heap w;
     calls := calls w |}.

Definition set_heap (f : list measure -> list measure) (w : World) : World :=
  {| units := units w; Measure_props := Measure_props w; ops := ops w;
     listeners := listeners w; prototype := prototype w; heap := f (heap w);
     calls := calls w |}.

Definition set_calls (f : list Call -> list Call) (w : World) : World :=
  {| units := units w; Measure_props := Measure_props w; ops := ops w;
     listeners := listeners w; prototype := prototype w; heap := heap w;
     calls := f (calls w) |}.

(** ** Computations: a state that survives an exception *)

Definition M (A : Type) : Type := World -> (Error + A) * World.

Definition ret {A} (a : A) : M A := fun w => (inr a, w).

Definition bind {A B} (c : M A) (k : A -> M B) : M B :=
  fun w => match c w with
           | (inr a, w') => k a w'
           | (inl e, w') => (inl e, w')
           end.

Definition throw {A} (e : Error) : M A := fun w => (inl e, w).

Definition get : M World := fun w => (inr w, w).

Definition modify (f : World -> World) : M () := fun w => (inr (), f w).

Definition lift {A} (r : Error + A) : M A := fun w => (r, w).

#[local] Notation "x <- c ;; k" := (bind c (fun x => k))
  (at level 100, c at next level, right associativity).
#[local] Notation "c ;;; k" := (bind c (fun _ => k))
  (at level 100, right associativity).

(** [array.forEach(f)] *)
Fixpoint forEach {A} (array : list A) (f : A -> M ()) : M () :=
  match array with
  | [] => ret ()
  | x :: rest => f x ;;; forEach rest f
  end.

(** [new]: the instance takes the next place of the heap. *)
Definition alloc (m : measure) : M loc :=
  w <- get ;; modify (set_heap (fun h => h ++ [m])) ;;; ret (length (heap w)).

Definition deref (l : loc) : M measure :=
  w <- get ;;
  match heap w !! l with
  | Some m => ret m
  | None => throw (TypeError "not a Measure")
  end.

(** ** Operations *)

Definition notify (listener : Listener) (name : string) (func : Fn) : M () :=
  match listener with
  | Mount => modify (set_prototype <[name := func]>)
  | Observer id =>
      w <- get ;;
      modify (set_calls (fun cs =>
        cs ++ [{| call_listener := id; call_name := name; call_func := func;
                  call_sees := ops w !! name |}]))
  end.

(** [register].  The table's [hasOwnProperty] (line 23) is the one every
    object has, which tells whether the table holds the name, as long as the
    table holds no operation that is named so (see [plain]). *)
Definition operations_register (name : string) (func : Fn) : M () :=
  w <- get ;;
  if bool_decide (is_Some (ops w !! name)) then
    throw (Err ("Operation [" +:+ name +:+ "] is already registered"))
  else
    modify (set_ops <[name := func]>) ;;;
    w <- get ;;
    forEach (listeners w) (fun listener => notify listener name func).

Definition operations_onRegister (listener : Listener) : M () :=
  modify (set_listeners (fun ls => ls ++ [listener])).

Definition operations_getOperations : M (gmap string Fn) :=
  w <- get ;; ret (ops w).

(** ** Measure *)

(** [Number(v)].  An instance is an object: the host converts it through its
    [valueOf] and [toString], which are those of every object as long as no
    operation of these names is mounted (see [plain]), and give the text
    [[object Object]], no number. *)
Definition Number (v : JSValue) : number :=
  match v with
  | VUndefined => NaN
  | VNull => lit 0
  | VBoolean b => if b then lit 1 else lit 0
  | VNumber n => n
  | VString s => StringToNumber s
  | VMeasure _ => NaN
  end.

(** [Unit._reserved.nonUnited] *)
Definition Unit_reserved_nonUnited : M Unit :=
  w <- get ;;
  match units w !! "_reserved" with
  | Some ns =>
      match ns !! "nonUnited" with
      | Some u => ret u
      | None => throw (TypeError "undefined is not a unit")
      end
  | None => throw (TypeError "Cannot read properties of undefined")
  end.

Definition Measure (value : JSValue) (unit : option Unit) (precision : JSValue) : M loc :=
  match value with
  | VMeasure l => ret l
  | _ =>
      let precision :=
        match precision with
        | VNumber p => p
        | _ => Number precision
        end in
      let precision := if isNaN precision then MAX_PRECISION else precision in
      let value :=
        match value with
        | VNumber v => v
        | _ => Number value
        end in
      if isNaN value then
        (* [value] is NaN here, and it is what the message shows *)
        throw (Err ("A number is required, found [" +:+ "NaN" +:+ "]"))
      else
        unit <- match unit with
                | Some u => ret u
                | None => Unit_reserved_nonUnited
                end ;;
        let precision := Math_max (Math_min precision MAX_PRECISION) MIN_PRECISION in
        v <- lift (Number_toPrecision value precision) ;;
        alloc {| val := v; raw := value; unit := unit; precision := precision |}
  end.

(** [a.isComparable(b)]: [b instanceof Unit[type]] for the type [a] was
    registered under; the instances of [Unit[type]] are the units registered
    under [type].  The units of every type the program defines (lines 103 to
    113) have the method; those of a type named as a property of [Unit] have
    not (see [ordinary_type]). *)
Definition isComparable (a b : Unit) : bool := String.eqb (type b) (type a).

Definition not_comparable (a b : Unit) : Error :=
  Err ("Unit " +:+ name a +:+ " is not comparable to " +:+ name b).

(** The argument of [as]: a unit, or the name of one. *)
Inductive UnitArg : Type :=
| AUnit (u : Unit)
| AName (key : string).

(** [as].  [Unit[type][unit]] (line 79) is the unit of the name among the
    units of the type, as long as the name is none of a property that the
    constructor of the type has besides (see [ordinary_name]). *)
Definition Measure_as (this : loc) (arg : UnitArg) : M loc :=
  this <- deref this ;;
  unit' <- match arg with
           | AUnit u => ret u
           | AName key =>
               (* lookup unit *)
               w <- get ;;
               match units w !! type (unit this) with
               | Some ns =>
                   match ns !! key with
                   | Some u => ret u
                   | None => throw (Err ("Unable to find unit [" +:+ key +:+ "]"))
                   end
               | None => throw (TypeError "Cannot read properties of undefined")
               end
           end ;;
  if negb (isComparable (unit this) unit') then
    throw (not_comparable (unit this) unit')
  else
    Measure (VNumber (raw this * scale (unit this) / scale unit')%js)
            (Some unit') (VNumber (precision this)).

(** ** Unit *)

Definition is_letter (c : ascii) : bool :=
  let n := N_of_ascii c in
  ((65 <=? n) && (n <=? 90) || (97 <=? n) && (n <=? 122))%N.

Definition is_word (c : ascii) : bool :=
  is_letter c || is_digit c || Ascii.eqb c "_".

(** [/^[_a-zA-Z]\w*$/] *)
Definition validNameRE (s : string) : bool :=
  match s with
  | String c rest =>
      (is_letter c || Ascii.eqb c "_") && forallb is_word (list_ascii_of_string rest)
  | EmptyString => false
  end.

Definition starts_with_underscore (s : string) : bool :=
  match s with
  | String c _ => Ascii.eqb c "_"
  | EmptyString => false
  end.

(** [Unit.register].  [Unit[type]] (line 102) and [Unit[type][name]] (line
    115) are the type and the unit among those registered, and [type in
    Measure] (line 111) tells whether the alias is there, as long as the
    names are none of properties that the functions [Unit], [Unit[type]]
    and [Measure] have besides, and the type is a name a function can have
    (see [ordinary_type] and [ordinary_name]). *)
Definition Unit_register (type' name' abbr' : string) (scale' : number) : M () :=
  if negb (validNameRE type') then
    throw (Err ("Type must be a camel case identifier [" +:+ type' +:+ "]"))
  else if negb (validNameRE name') then
    throw (Err ("Name must be a camel case identifier [" +:+ name' +:+ "]"))
  else
    w <- get ;;
    match units w !! type' with
    | None =>
        (* define unit type *)
        modify (set_units <[type' := ∅]>) ;;;
        if negb (bool_decide (type' ∈ Measure_props w)) && negb (starts_with_underscore type')
        then modify (set_Measure_props (fun ps => {[type']} ∪ ps))
        else ret ()
    | Some _ => ret ()
    end ;;;
    w <- get ;;
    match units w !! type' with
    | None => throw (TypeError "Cannot read properties of undefined")
    | Some ns =>
        match ns !! name' with
        | Some _ =>
            throw (Err ("Unit already exists [" +:+ type' +:+ "][" +:+ name' +:+ "]"))
        | None =>
            (* define unit *)
            modify (set_units <[type' :=
              <[name' := {| name := name'; type := type'; abbr := abbr'; scale := scale' |}]> ns]>)
        end
    end.

(** ** Operations mounted on Measure instances *)

(** The function the program's listener stores in [Measure.prototype[name]],
    for the [operation] it was called with.  The arguments are those of
    [Measure]. *)
Definition method (operation : Fn) (this : loc)
    (value : JSValue) (unit' : option Unit) (precision' : JSValue) : M loc :=
  measure <- match value with
             | VMeasure l => ret l
             | _ =>
                 (* always use same argument signature as Measure *)
                 Measure value unit' precision'
             end ;;
  this <- deref this ;;
  measure <- deref measure ;;
  if negb (isComparable (unit this) (unit measure)) then
    throw (not_comparable (unit this) (unit measure))
  else
    Measure
      (VNumber (operation (raw this * scale (unit this))%js
                          (raw measure * scale (unit measure))%js
                / scale (unit this))%js)
      (Some (unit this))
      (VNumber (Math_min (precision this) (precision measure))).

(** [this[name](value, unit, precision)]: the method mounted under the name,
    as long as the name is none of a field of the instance or of [as] (see
    [plain]). *)
Definition invoke (this : loc) (name : string)
    (value : JSValue) (unit' : option Unit) (precision' : JSValue) : M loc :=
  w <- get ;;
  match prototype w !! name with
  | Some operation => method operation this value unit' precision'
  | None => throw (TypeError (name +:+ " is not a function"))
  end.

(** ** The module body *)

Definition empty_world : World :=
  {| units := ∅; Measure_props := ∅; ops := ∅; listeners := []; prototype := ∅;
     heap := []; calls := [] |}.

Definition module_body : M () :=
  (* automatically add operation to Measure instances *)
  operations_onRegister Mount ;;;
  (* define basic units *)
  Unit_register "_reserved" "nonUnited" "" (numeral "1") ;;;
  Unit_register "amount" "count" "" (numeral "1") ;;;
  Unit_register "amount" "mole" "mol" (numeral "1") ;;;
  Unit_register "distance" "astronomicalUnit" "au" (numeral "149597870700") ;;;
  Unit_register "distance" "kilometer" "km" (numeral "1000") ;;;
  Unit_register "distance" "meter" "m" (numeral "1") ;;;
  Unit_register "distance" "millimeter" "mm" (numeral "0.001") ;;;
  Unit_register "distance" "mile" "mi" (numeral "1609.344") ;;;
  Unit_register "distance" "yard" "yd" (numeral "0.9144") ;;;
  Unit_register "distance" "foot" "ft" (numeral "0.30480") ;;;
  Unit_register "distance" "inch" "in" (numeral "0.0254") ;;;
  Unit_register "time" "day" "d" (numeral "86400") ;;;
  Unit_register "time" "hour" "hr" (numeral "3600") ;;;
  Unit_register "time" "minute" "m" (numeral "60") ;;;
  Unit_register "time" "second" "s" (numeral "1") ;;;
  (* register basic math operations *)
  operations_register "add" (fun a b => a + b)%js ;;;
  operations_register "subtract" (fun a b => a - b)%js ;;;
  operations_register "multiply" (fun a b => a * b)%js ;;;
  operations_register "divide" (fun a b => a / b)%js ;;;
  modify (set_Measure_props (fun ps => {["Measure"; "Unit"; "operations"]} ∪ ps)).

(** The world once the module is loaded. *)
Definition loaded : World := (module_body empty_world).2.

End Program.

Arguments Unit : clear implicits.
Arguments measure : clear implicits.
Arguments JSValue : clear implicits.
Arguments Fn : clear implicits.
Arguments Call : clear implicits.
Arguments World : clear implicits.
Arguments M : clear implicits.

Notation "x <- c ;; k" := (bind c (fun x => k))
  (at level 100, c at next level, right associativity).
Notation "c ;;; k" := (bind c (fun _ => k))
  (at level 100, right associativity).
(** * Facts about host numbers *)

(** What the embedding needs of a model of numbers. *)
Definition valid_scale {number : Type} {Num : JSNumber number} (s : number) : bool :=
  match classify s with
  | CFin false (Npos _) _ => true
  | _ => false
  end.

Class JSNumberLaws {number : Type} (Num : JSNumber number) : Prop := {
  classify_NaN : classify NaN = CNaN;
  classify_lit_15 : classify (lit 15) = CFin false 15 1;
  classify_lit_1 : classify (lit 1) = CFin false 1 1;
  mul_not_NaN : forall x s,
    isNaN x = false -> valid_scale s = true -> isNaN (x * s)%js = false;
  div_not_NaN : forall x s,
    isNaN x = false -> valid_scale s = true -> isNaN (x / s)%js = false
}.

Section NumberFacts.
Context {number : Type} {Num : JSNumber number} {Laws : JSNumberLaws Num}.

Definition clamp (p : number) : number :=
  Math_max (Math_min p MAX_PRECISION) MIN_PRECISION.

(** [1 <= p && p <= 15] *)
Definition in_range (p : number) : bool :=
  le MIN_PRECISION p && le p MAX_PRECISION.

Lemma isNaN_NaN : isNaN NaN = true.
Proof. unfold isNaN. by rewrite classify_NaN. Qed.

Lemma in_range_classify p :
  in_range p = true <->
  exists n d, classify p = CFin false n d /\ (Z.pos d <= Z.of_N n <= 15 * Z.pos d)%Z.
Proof.
  unfold in_range, le, compare, MIN_PRECISION, MAX_PRECISION.
  rewrite classify_lit_1, classify_lit_15.
  destruct (classify p) as [|s|s n d]; simpl.
  - split; [done | intros (?&?&[=]&?)].
  - destruct s; simpl; (split; [done | intros (?&?&[=]&?)]).
  - unfold ratio_compare, signed. rewrite andb_true_iff.
    split.
    + intros [H1 H2]. exists n, d.
      repeat match goal with
             | H : context [(?a ?= ?b)%Z] |- _ => destruct (Z.compare_spec a b); try done
             end; destruct s; (split; [done || lia | lia]).
    + intros (n'&d'&[= -> <- <-]&H1&H2).
      split; match goal with
             | |- context [(?a ?= ?b)%Z] => destruct (Z.compare_spec a b); try done; lia
             end.
Qed.


Lemma in_range_MAX : in_range MAX_PRECISION = true.
Proof.
  apply in_range_classify. exists 15%N, 1%positive.
  split; [apply classify_lit_15 | lia].
Qed.

Lemma in_range_MIN : in_range MIN_PRECISION = true.
Proof.
  apply in_range_classify. exists 1%N, 1%positive.
  split; [apply classify_lit_1 | lia].
Qed.

Lemma in_range_not_NaN p : in_range p = true -> isNaN p = false.
Proof.
  intros (n & d & Hp & _)%in_range_classify. unfold isNaN. by rewrite Hp.
Qed.

Lemma compare_antisym x y :
  compare y x = option_map CompOpp (compare x y).
Proof.
  unfold compare.
  destruct (classify x) as [|s1|s1 n1 d1], (classify y) as [|s2|s2 n2 d2];
    simpl; try done; try (by destruct s1); try (by destruct s2).
  - by destruct s1, s2.
  - unfold ratio_compare. by rewrite Z.compare_antisym.
Qed.

Lemma compare_None x y :
  compare x y = None <-> isNaN x = true \/ isNaN y = true.
Proof.
  unfold compare, isNaN.
  destruct (classify x), (classify y); simpl; split; try done; auto;
    by intros [|].
Qed.

(** Of two numbers, [x < y] or [y <= x]. *)
Lemma lt_false_le x y :
  isNaN x = false -> isNaN y = false -> lt x y = false -> le y x = true.
Proof.
  intros Hx Hy. unfold lt, le. rewrite (compare_antisym x y).
  destruct (compare x y) as [[]|] eqn:E; simpl; try done.
  apply compare_None in E as [|]; congruence.
Qed.

Lemma lt_le_false x y : lt x y = true -> le y x = false.
Proof.
  unfold lt, le. rewrite (compare_antisym x y).
  by destruct (compare x y) as [[]|].
Qed.

Lemma isNaN_MAX : isNaN MAX_PRECISION = false.
Proof. unfold isNaN, MAX_PRECISION. by rewrite classify_lit_15. Qed.

Lemma isNaN_MIN : isNaN MIN_PRECISION = false.
Proof. unfold isNaN, MIN_PRECISION. by rewrite classify_lit_1. Qed.

Lemma Math_min_MAX p :
  isNaN p = false ->
  Math_min p MAX_PRECISION = if lt MAX_PRECISION p then MAX_PRECISION else p.
Proof.
  intros Hp. unfold Math_min. rewrite Hp, isNaN_MAX. simpl.
  unfold is_zero at 2, MAX_PRECISION at 1. rewrite classify_lit_15.
  by rewrite andb_false_r.
Qed.

Lemma Math_max_MIN p :
  isNaN p = false ->
  Math_max p MIN_PRECISION = if lt p MIN_PRECISION then MIN_PRECISION else p.
Proof.
  intros Hp. unfold Math_max. rewrite Hp, isNaN_MIN. simpl.
  unfold is_zero at 2, MIN_PRECISION at 1. rewrite classify_lit_1.
  by rewrite andb_false_r.
Qed.

Lemma lt_MAX_MIN : lt MAX_PRECISION MIN_PRECISION = false.
Proof.
  unfold lt, compare, MAX_PRECISION, MIN_PRECISION.
  by rewrite classify_lit_15, classify_lit_1.
Qed.

(** The three outcomes of clamping. *)
Lemma clamp_cases p :
  isNaN p = false ->
  (lt p MIN_PRECISION = true /\ clamp p = MIN_PRECISION) \/
  (lt MAX_PRECISION p = true /\ clamp p = MAX_PRECISION) \/
  (in_range p = true /\ clamp p = p).
Proof.
  intros Hp. unfold clamp. rewrite (Math_min_MAX p Hp).
  destruct (lt MAX_PRECISION p) eqn:Hmax.
  - right; left. split; [done|].
    by rewrite (Math_max_MIN _ isNaN_MAX), lt_MAX_MIN.
  - rewrite (Math_max_MIN p Hp).
    destruct (lt p MIN_PRECISION) eqn:Hmin; [by left|].
    right; right. split; [|done].
    unfold in_range.
    by rewrite (lt_false_le _ _ Hp isNaN_MIN Hmin), (lt_false_le _ _ isNaN_MAX Hp Hmax).
Qed.

Lemma clamp_in_range p : isNaN p = false -> in_range (clamp p) = true.
Proof.
  intros Hp.
  destruct (clamp_cases p Hp) as [[_ ->]|[[_ ->]|[? ->]]];
    auto using in_range_MIN, in_range_MAX.
Qed.

Lemma clamp_id p : in_range p = true -> clamp p = p.
Proof.
  intros Hr. pose proof (in_range_not_NaN p Hr) as Hp.
  unfold in_range in Hr. apply andb_prop in Hr as [H1 H2].
  destruct (clamp_cases p Hp) as [[H _]|[[H _]|[_ ->]]]; [| |done].
  - apply lt_le_false in H. congruence.
  - apply lt_le_false in H. congruence.
Qed.

(** [Math.min] of two precisions in range is one of them. *)
Lemma Math_min_in_range a b :
  in_range a = true -> in_range b = true -> in_range (Math_min a b) = true.
Proof.
  intros Ha Hb. unfold Math_min.
  rewrite (in_range_not_NaN a Ha), (in_range_not_NaN b Hb). simpl.
  by repeat case_match.
Qed.

(** Rounding to a precision in range raises no RangeError. *)
Lemma Number_toPrecision_ok x p :
  in_range p = true -> exists v, Number_toPrecision x p = inr v.
Proof.
  intros (n & d & Hp & H1 & H2)%in_range_classify.
  unfold Number_toPrecision. rewrite Hp.
  destruct (classify x) as [|s|s nx dx]; [by eexists..|].
  assert (1 <= truncate false n d <= 15)%Z as Ht.
  { unfold truncate, signed. rewrite N2Z.inj_div. simpl Z.of_N.
    split.
    - apply Z.div_le_lower_bound; lia.
    - apply Z.div_le_upper_bound; lia. }
  destruct (Z.leb_spec 1 (truncate false n d)); [|lia].
  destruct (Z.leb_spec (truncate false n d) 100); [|lia].
  simpl. destruct nx; by eexists.
Qed.

End NumberFacts.

(** ** The laws at binary64 *)

Lemma shr_1_nonneg mrs : 0 <= shr_m mrs -> 0 <= shr_m (shr_1 mrs).
Proof. destruct mrs as [[|[p|p|]|[p|p|]] r s]; simpl; lia. Qed.

Lemma iter_shr_1_nonneg p mrs :
  0 <= shr_m mrs -> 0 <= shr_m (SpecFloat.iter_pos shr_1 p mrs).
Proof.
  revert mrs. induction p as [p IH|p IH|]; intros mrs H; simpl;
    auto using shr_1_nonneg.
Qed.

Lemma shr_fexp_nonneg m e l :
  0 <= m -> 0 <= shr_m (shr_fexp prec emax m e l).1.
Proof.
  intros H. unfold shr_fexp, shr.
  assert (0 <= shr_m (shr_record_of_loc m l)) by (by destruct l as [|[]]).
  destruct (_ - e); simpl; auto using iter_shr_1_nonneg.
Qed.

Lemma round_nearest_even_nonneg m l : 0 <= m -> 0 <= round_nearest_even m l.
Proof.
  intros H. destruct l as [|[]]; simpl; try lia. destruct (Z.even m); lia.
Qed.

Lemma binary_round_aux_not_nan s m e l :
  0 <= m -> binary_round_aux prec emax s m e l <> S754_nan.
Proof.
  intros H. unfold binary_round_aux.
  pose proof (shr_fexp_nonneg m e l H) as H1.
  destruct (shr_fexp prec emax m e l) as [mrs' e']. simpl in H1.
  pose proof (shr_fexp_nonneg _ e' loc_Exact
                (round_nearest_even_nonneg _ (loc_of_shr_record mrs') H1)) as H2.
  destruct (shr_fexp prec emax _ e' loc_Exact) as [mrs'' e'']. simpl in H2.
  destruct (shr_m mrs''); [done| |lia].
  by destruct (_ <=? _).
Qed.

Lemma SF64_view_NaN x : SF64_view x = CNaN <-> x = S754_nan.
Proof. destruct x as [| | |s m [|p|p]]; simpl; split; done. Qed.

Lemma SF64_view_scale x n d :
  SF64_view x = CFin false (Npos n) d -> exists m e, x = S754_finite false m e.
Proof. destruct x as [| | |s m e]; try done. destruct e; intros [= -> _]; eauto. Qed.

Lemma SF64mul_not_nan x m e :
  x <> S754_nan -> SF64mul x (S754_finite false m e) <> S754_nan.
Proof.
  intros Hx. destruct x; try done. simpl.
  apply binary_round_aux_not_nan. lia.
Qed.

Lemma SF64div_not_nan x m e :
  x <> S754_nan -> SF64div x (S754_finite false m e) <> S754_nan.
Proof.
  intros Hx. destruct x as [| | |s mx ex]; try done.
  unfold SF64div, SFdiv, SFdiv_core_binary.
  set (m' := match _ - _ - _ with Z0 => _ | Zpos _ => _ | Zneg _ => _ end).
  assert (0 <= m') as Hm'.
  { subst m'. destruct (_ - _ - _); [lia| |lia]. apply Z.shiftl_nonneg. lia. }
  pose proof (Z.div_pos m' (Z.pos m) Hm' eq_refl) as Hq.
  unfold Z.div in Hq. destruct (Z.div_eucl m' (Z.pos m)) as [q r].
  by apply binary_round_aux_not_nan.
Qed.

#[global] Instance binary64_laws : JSNumberLaws binary64.
Proof.
  split.
  - reflexivity.
  - reflexivity.
  - reflexivity.
  - intros x s Hx Hs. unfold isNaN, valid_scale in *. simpl in *.
    rewrite mul_spec.
    destruct (SF64_view (Prim2SF s)) as [| |[] [|n] d] eqn:Es; try done.
    apply SF64_view_scale in Es as (m & e & ->).
    destruct (SF64_view (SF64mul _ _)) eqn:E; try done.
    apply SF64_view_NaN in E. apply SF64mul_not_nan in E; [done|].
    intros E'. by rewrite E' in Hx.
  - intros x s Hx Hs. unfold isNaN, valid_scale in *. simpl in *.
    rewrite div_spec.
    destruct (SF64_view (Prim2SF s)) as [| |[] [|n] d] eqn:Es; try done.
    apply SF64_view_scale in Es as (m & e & ->).
    destruct (SF64_view (SF64div _ _)) eqn:E; try done.
    apply SF64_view_NaN in E. apply SF64div_not_nan in E; [done|].
    intros E'. by rewrite E' in Hx.
Qed.

(** * Facts about the program *)

Section ProgramFacts.
Context {number : Type} {Num : JSNumber number} {Laws : JSNumberLaws Num}.

(** The precision argument after coercion and defaulting. *)
Definition default_precision (precision : JSValue number) : number :=
  if isNaN (Number precision) then MAX_PRECISION else Number precision.

(** [unit || Unit._reserved.nonUnited] *)
Definition unit_or_default (w : World number) (unit : option (Unit number)) : option (Unit number) :=
  match unit with
  | Some u => Some u
  | None => units w !! "_reserved" ≫= (.!! "nonUnited")
  end.

Definition is_Measure (v : JSValue number) : bool :=
  match v with VMeasure _ => true | _ => false end.

Lemma default_precision_not_NaN p : isNaN (default_precision p) = false.
Proof.
  unfold default_precision. destruct (isNaN (Number p)) eqn:E; [|done].
  apply isNaN_MAX.
Qed.

(** A Measure passed to [Measure] is returned as it is. *)
Lemma Measure_of_Measure l unit precision w :
  Measure (VMeasure l) unit precision w = (inr l, w).
Proof. done. Qed.

(** The body of [Measure] for a value that is not a Measure. *)
Lemma Measure_unfold value unit precision :
  is_Measure value = false ->
  Measure value unit precision =
  if isNaN (Number value) then
    throw (Err "A number is required, found [NaN]")
  else
    unit <- match unit with
            | Some u => ret u
            | None => Unit_reserved_nonUnited
            end ;;
    v <- lift (Number_toPrecision (Number value) (clamp (default_precision precision))) ;;
    alloc {| val := v; raw := Number value; unit := unit;
             precision := clamp (default_precision precision) |}.
Proof. intros Hv. destruct value; try done; by destruct precision. Qed.

(** A value that coerces to NaN is refused. *)
Lemma Measure_of_NaN value unit precision w :
  is_Measure value = false ->
  isNaN (Number value) = true ->
  Measure value unit precision w
  = (inl (Err "A number is required, found [NaN]"), w).
Proof. intros Hv HN. by rewrite Measure_unfold, HN. Qed.

Lemma unit_or_default_run w unit u :
  unit_or_default w unit = Some u ->
  match unit with Some u0 => ret u0 | None => Unit_reserved_nonUnited end w
  = (inr u, w).
Proof.
  destruct unit as [u0|]; simpl; intros Hu.
  - by injection Hu as ->.
  - unfold Unit_reserved_nonUnited, bind, get, ret.
    destruct (units w !! "_reserved") as [ns|]; [|done]. simpl in Hu.
    by rewrite Hu.
Qed.

(** Any other value makes a new instance. *)
Lemma Measure_new value unit precision w u :
  is_Measure value = false ->
  isNaN (Number value) = false ->
  unit_or_default w unit = Some u ->
  exists v,
    Number_toPrecision (Number value) (clamp (default_precision precision)) = inr v /\
    Measure value unit precision w
    = (inr (length (heap w)),
       set_heap (fun h => h ++ [{| val := v; raw := Number value; unit := u;
                                   precision := clamp (default_precision precision) |}]) w).
Proof.
  intros Hv HN Hu.
  destruct (Number_toPrecision_ok (Number value) (clamp (default_precision precision)))
    as [v Hval].
  { apply clamp_in_range, default_precision_not_NaN. }
  exists v. split; [done|].
  rewrite Measure_unfold, HN by done.
  unfold bind at 1. rewrite (unit_or_default_run _ _ _ Hu).
  unfold bind, lift, alloc, get, modify, ret. by rewrite Hval.
Qed.

(** [new Measure(x, u, p)] for a number [x], a unit and a precision in range. *)
Lemma Measure_number x u p w :
  isNaN x = false ->
  in_range p = true ->
  exists v,
    Number_toPrecision x p = inr v /\
    Measure (VNumber x) (Some u) (VNumber p) w
    = (inr (length (heap w)),
       set_heap (fun h => h ++ [{| val := v; raw := x; unit := u; precision := p |}]) w).
Proof.
  intros Hx Hp.
  destruct (Measure_new (VNumber x) (Some u) (VNumber p) w u) as (v & Hv & Hrun);
    try done.
  assert (clamp (default_precision (VNumber p)) = p) as Hc.
  { unfold default_precision. simpl. rewrite (in_range_not_NaN p Hp).
    by apply clamp_id. }
  rewrite Hc in Hv, Hrun. by exists v.
Qed.

Lemma Measure_number_NaN x u p w :
  isNaN x = true ->
  Measure (VNumber x) u p w = (inl (Err "A number is required, found [NaN]"), w).
Proof. intros Hx. by apply Measure_of_NaN. Qed.

(** ** Conversion *)

Lemma deref_run (w : World number) l m : heap w !! l = Some m -> deref l w = (inr m, w).
Proof. intros H. unfold deref, bind, get, ret. by rewrite H. Qed.

Definition convert (this : measure number) (u : Unit number) : M number loc :=
  if negb (isComparable (unit this) u) then throw (not_comparable (unit this) u)
  else Measure (VNumber (raw this * scale (unit this) / scale u)%js) (Some u)
               (VNumber (precision this)).

Lemma Measure_as_unit w l m u :
  heap w !! l = Some m ->
  Measure_as l (AUnit u) w = convert m u w.
Proof.
  intros Hl. unfold Measure_as, bind at 1. by rewrite (deref_run w l m Hl).
Qed.

Lemma Measure_as_name w l m key ns :
  heap w !! l = Some m ->
  units w !! type (unit m) = Some ns ->
  Measure_as l (AName key) w
  = match ns !! key with
    | Some u => convert m u w
    | None => (inl (Err ("Unable to find unit [" +:+ key +:+ "]")), w)
    end.
Proof.
  intros Hl Hns. unfold Measure_as, bind at 1. rewrite (deref_run w l m Hl).
  unfold bind, get. rewrite Hns. by destruct (ns !! key).
Qed.

(** ** Operations on instances *)

Definition combine (operation : Fn number) (this other : measure number) : M number loc :=
  if negb (isComparable (unit this) (unit other)) then
    throw (not_comparable (unit this) (unit other))
  else
    Measure
      (VNumber (operation (raw this * scale (unit this))%js
                          (raw other * scale (unit other))%js
                / scale (unit this))%js)
      (Some (unit this))
      (VNumber (Math_min (precision this) (precision other))).

Lemma method_of_Measure w operation l m l' m' unit precision :
  heap w !! l = Some m ->
  heap w !! l' = Some m' ->
  method operation l (VMeasure l') unit precision w = combine operation m m' w.
Proof.
  intros Hl Hl'. unfold method. unfold bind at 1, ret at 1.
  unfold bind at 1. rewrite (deref_run w l m Hl).
  unfold bind at 1. by rewrite (deref_run w l' m' Hl').
Qed.

Lemma method_of_NaN w operation l value unit precision :
  is_Measure value = false ->
  isNaN (Number value) = true ->
  method operation l value unit precision w
  = (inl (Err "A number is required, found [NaN]"), w).
Proof.
  intros Hv HN. unfold method.
  assert (match value with VMeasure l0 => ret l0 | _ => Measure value unit precision end
          = Measure value unit precision) as -> by (by destruct value).
  unfold bind at 1. by rewrite Measure_of_NaN.
Qed.

Lemma method_of_value w operation l m value unit precision u :
  heap w !! l = Some m ->
  is_Measure value = false ->
  isNaN (Number value) = false ->
  unit_or_default w unit = Some u ->
  exists v,
    let other := {| val := v; raw := Number value; unit := u;
                    precision := clamp (default_precision precision) |} in
    Number_toPrecision (Number value) (clamp (default_precision precision)) = inr v /\
    method operation l value unit precision w
    = combine operation m other (set_heap (fun h => h ++ [other]) w).
Proof.
  intros Hl Hv HN Hu.
  destruct (Measure_new value unit precision w u Hv HN Hu) as (v & Hval & Hrun).
  exists v. split; [done|]. unfold method.
  assert (match value with VMeasure l0 => ret l0 | _ => Measure value unit precision end
          = Measure value unit precision) as -> by (by destruct value).
  unfold bind at 1. rewrite Hrun.
  unfold bind at 1. erewrite deref_run; last first.
  { simpl. by apply lookup_app_l_Some. }
  unfold bind at 1. erewrite deref_run; [done|].
  simpl. by rewrite list_lookup_middle.
Qed.

(** ** Registration of units *)

Definition new_unit (type' name' abbr' : string) (scale' : number) : Unit number :=
  {| name := name'; type := type'; abbr := abbr'; scale := scale' |}.

(** [Unit[type][name]] *)
Definition lookup_unit (w : World number) (type' name' : string) : option (Unit number) :=
  units w !! type' ≫= (.!! name').

(** The world after a unit type was defined. *)
Definition define_type (type' : string) (w : World number) : World number :=
  let w1 := set_units <[type' := ∅]> w in
  if negb (bool_decide (type' ∈ Measure_props w)) && negb (starts_with_underscore type')
  then set_Measure_props (fun ps => {[type']} ∪ ps) w1
  else w1.

Lemma Unit_register_run type' name' abbr' (scale' : number) w :
  Unit_register type' name' abbr' scale' w =
  if negb (validNameRE type') then
    (inl (Err ("Type must be a camel case identifier [" +:+ type' +:+ "]")), w)
  else if negb (validNameRE name') then
    (inl (Err ("Name must be a camel case identifier [" +:+ name' +:+ "]")), w)
  else
    match units w !! type' with
    | Some ns =>
        match ns !! name' with
        | Some _ =>
            (inl (Err ("Unit already exists [" +:+ type' +:+ "][" +:+ name' +:+ "]")), w)
        | None =>
            (inr (), set_units <[type' :=
                       <[name' := new_unit type' name' abbr' scale']> ns]> w)
        end
    | None =>
        (inr (), set_units <[type' := {[name' := new_unit type' name' abbr' scale']}]>
                   (define_type type' w))
    end.
Proof.
  unfold Unit_register.
  destruct (validNameRE type'); [|done].
  destruct (validNameRE name'); [|done]. simpl.
  unfold bind at 1, get at 1.
  destruct (units w !! type') as [ns|] eqn:Ht.
  - unfold bind, ret, get. rewrite Ht.
    by destruct (ns !! name').
  - unfold define_type.
    destruct (negb (bool_decide (type' ∈ Measure_props w)) &&
              negb (starts_with_underscore type'));
      unfold bind, ret, get, modify; simpl; by rewrite lookup_insert_eq.
Qed.

Lemma units_define_type type' w :
  units (define_type type' w) = <[type' := ∅]> (units w).
Proof. unfold define_type. by case_match. Qed.

(** ** Registration of operations *)

(** The listeners of a consumer among the subscribed ones, in order. *)
Definition observers (ls : list Listener) : list nat :=
  omap (fun l => match l with Observer id => Some id | Mount => None end) ls.

(** The world once the listeners were called. *)
Definition notified (ls : list Listener) (name' : string) (func : Fn number) (w : World number) : World number :=
  foldl (fun w l => (notify l name' func w).2) w ls.

Lemma forEach_notify ls name' func w :
  forEach ls (fun l => notify l name' func) w = (inr (), notified ls name' func w).
Proof.
  revert w. induction ls as [|l ls IH]; intros w; [done|].
  simpl. unfold bind. destruct l; simpl; by rewrite IH.
Qed.

Lemma notified_frame ls name' func w :
  let w' := notified ls name' func w in
  units w' = units w /\ Measure_props w' = Measure_props w /\ ops w' = ops w /\
  listeners w' = listeners w /\ heap w' = heap w.
Proof.
  revert w. induction ls as [|l ls IH]; intros w; [done|].
  simpl. destruct (IH (notify l name' func w).2) as (-> & -> & -> & -> & ->).
  by destruct l.
Qed.

Lemma notified_calls ls name' func w :
  calls (notified ls name' func w)
  = calls w ++ map (fun id => {| call_listener := id; call_name := name';
                                 call_func := func; call_sees := ops w !! name' |})
                   (observers ls).
Proof.
  revert w. induction ls as [|l ls IH]; intros w; simpl.
  - by rewrite app_nil_r.
  - rewrite IH. destruct l; simpl; [done|]. by rewrite <- app_assoc.
Qed.

Lemma notified_prototype ls name' func w :
  prototype (notified ls name' func w)
  = if bool_decide (Mount ∈ ls) then <[name' := func]> (prototype w) else prototype w.
Proof.
  revert w. induction ls as [|l ls IH]; intros w; [done|].
  change (notified (l :: ls) name' func w)
    with (notified ls name' func (notify l name' func w).2).
  rewrite IH. destruct l as [|id].
  - rewrite (bool_decide_true (Mount ∈ Mount :: ls)) by left.
    destruct (bool_decide (Mount ∈ ls)); [apply insert_insert_eq | done].
  - rewrite (bool_decide_ext (Mount ∈ Observer id :: ls) (Mount ∈ ls)); [done|].
    rewrite elem_of_cons. split; [by intros [|] | by right].
Qed.

Lemma operations_register_run name' func w :
  operations_register name' func w =
  if bool_decide (is_Some (ops w !! name')) then
    (inl (Err ("Operation [" +:+ name' +:+ "] is already registered")), w)
  else
    (inr (), notified (listeners w) name' func (set_ops <[name' := func]> w)).
Proof.
  unfold operations_register, bind at 1, get at 1.
  destruct (bool_decide (is_Some (ops w !! name'))); [done|].
  unfold bind, modify, get. simpl. by rewrite forEach_notify.
Qed.

(** ** Invariants *)

(** A unit is registered when the registry holds it under its type and name:
    the units a caller can hold are the registered ones, since [Unit] is not
    constructable. *)
Definition registered (w : World number) (u : Unit number) : Prop :=
  lookup_unit w (type u) (name u) = Some u.

Record measure_ok (w : World number) (m : measure number) : Prop := {
  raw_not_NaN : isNaN (raw m) = false;
  precision_in_range : in_range (precision m) = true;
  unit_registered : registered w (unit m)
}.

Definition units_ok (w : World number) : Prop :=
  forall t n u, lookup_unit w t n = Some u ->
    name u = n /\ type u = t /\ validNameRE t = true /\ validNameRE n = true.

Definition heap_ok (w : World number) : Prop :=
  forall l m, heap w !! l = Some m -> measure_ok w m.

Definition calls_ok (w : World number) : Prop :=
  forall c, c ∈ calls w -> call_listener c ∈ observers (listeners w).

Record Inv (w : World number) : Prop := {
  inv_units : units_ok w;
  inv_nonUnited : is_Some (lookup_unit w "_reserved" "nonUnited");
  inv_mount : Mount ∈ listeners w;
  inv_prototype : prototype w = ops w;
  inv_heap : heap_ok w;
  inv_calls : calls_ok w
}.

(** [w'] is [w] with more units. *)
Definition more_units (w w' : World number) : Prop :=
  (forall t n u, lookup_unit w t n = Some u -> lookup_unit w' t n = Some u) /\
  ops w' = ops w /\ listeners w' = listeners w /\ prototype w' = prototype w /\
  heap w' = heap w /\ calls w' = calls w.

(** [w'] is [w] with more instances. *)
Definition more_measures (w w' : World number) : Prop :=
  units w' = units w /\ Measure_props w' = Measure_props w /\ ops w' = ops w /\
  listeners w' = listeners w /\ prototype w' = prototype w /\ calls w' = calls w /\
  exists ms, heap w' = heap w ++ ms /\ Forall (measure_ok w) ms.

Lemma more_measures_refl w : more_measures w w.
Proof.
  repeat split. exists []. by rewrite app_nil_r.
Qed.

Lemma measure_ok_units w w' m :
  units w' = units w -> measure_ok w m -> measure_ok w' m.
Proof.
  intros Hu [H1 H2 H3]. split; try done.
  unfold registered, lookup_unit in *. by rewrite Hu.
Qed.

Lemma more_measures_trans w1 w2 w3 :
  more_measures w1 w2 -> more_measures w2 w3 -> more_measures w1 w3.
Proof.
  intros (Hu & Hp & Ho & Hl & Hpr & Hc & ms & Hh & Hms)
         (Hu' & Hp' & Ho' & Hl' & Hpr' & Hc' & ms' & Hh' & Hms').
  repeat split; try congruence.
  exists (ms ++ ms'). split.
  - by rewrite Hh', Hh, app_assoc.
  - apply Forall_app. split; [done|].
    eapply Forall_impl; [done|]. intros m. by apply measure_ok_units.
Qed.

Lemma more_measures_alloc w m :
  measure_ok w m -> more_measures w (set_heap (fun h => h ++ [m]) w).
Proof.
  intros Hm. repeat split. exists [m]. split; [done|]. by constructor.
Qed.

Lemma more_measures_lookup w w' l m :
  more_measures w w' -> heap w !! l = Some m -> heap w' !! l = Some m.
Proof.
  intros (_ & _ & _ & _ & _ & _ & ms & -> & _) Hl. by apply lookup_app_l_Some.
Qed.

Lemma Inv_more_measures w w' : Inv w -> more_measures w w' -> Inv w'.
Proof.
  intros [] (Hu & Hp & Ho & Hl & Hpr & Hc & ms & Hh & Hms).
  split.
  - unfold units_ok, lookup_unit in *. by rewrite Hu.
  - unfold lookup_unit in *. by rewrite Hu.
  - by rewrite Hl.
  - by rewrite Hpr, Ho.
  - intros l m. rewrite Hh. intros [H|[_ H]]%lookup_app_Some.
    + apply (measure_ok_units w); [done|]. eauto.
    + apply (measure_ok_units w); [done|].
      eapply Forall_lookup_1; done.
  - unfold calls_ok. rewrite Hc, Hl. done.
Qed.

Lemma registered_default w u :
  units_ok w -> lookup_unit w "_reserved" "nonUnited" = Some u -> registered w u.
Proof.
  intros Hok Hu. destruct (Hok _ _ _ Hu) as (Hn & Ht & _).
  unfold registered. by rewrite Hn, Ht.
Qed.

Definition registered_opt (w : World number) (unit : option (Unit number)) : Prop :=
  forall u, unit = Some u -> registered w u.

Lemma unit_or_default_registered w unit :
  Inv w -> registered_opt w unit ->
  exists u, unit_or_default w unit = Some u /\ registered w u.
Proof.
  intros HI Hu. destruct unit as [u|]; simpl.
  - exists u. split; [done|]. by apply Hu.
  - destruct (inv_nonUnited w HI) as [u Hl]. exists u. split; [done|].
    apply registered_default; [apply HI | done].
Qed.

(** What [Measure] does to the world. *)
Lemma Measure_more_measures value unit precision w :
  Inv w -> registered_opt w unit ->
  more_measures w (Measure value unit precision w).2.
Proof.
  intros HI Hu.
  destruct (is_Measure value) eqn:Hv.
  { destruct value; try done. apply more_measures_refl. }
  destruct (isNaN (Number value)) eqn:HN.
  { rewrite Measure_of_NaN by done. apply more_measures_refl. }
  destruct (unit_or_default_registered w unit HI Hu) as (u & Hd & Hr).
  destruct (Measure_new value unit precision w u Hv HN Hd) as (v & Hval & ->).
  apply more_measures_alloc. split; simpl; try done.
  apply clamp_in_range, default_precision_not_NaN.
Qed.

Lemma Measure_number_more_measures x u p w :
  in_range p = true -> registered w u ->
  more_measures w (Measure (VNumber x) (Some u) (VNumber p) w).2.
Proof.
  intros Hp Hu. destruct (isNaN x) eqn:Hx.
  { rewrite Measure_number_NaN by done. apply more_measures_refl. }
  destruct (Measure_number x u p w Hx Hp) as (v & Hval & ->).
  by apply more_measures_alloc.
Qed.

Lemma convert_more_measures m u w :
  measure_ok w m -> registered w u -> more_measures w (convert m u w).2.
Proof.
  intros Hm Hu. unfold convert.
  destruct (isComparable (unit m) u); simpl; [|apply more_measures_refl].
  apply Measure_number_more_measures; [apply Hm | done].
Qed.

Lemma registered_lookup w t n u :
  units_ok w -> lookup_unit w t n = Some u -> registered w u.
Proof.
  intros Hok Hu. destruct (Hok _ _ _ Hu) as (Hn & Ht & _).
  unfold registered. by rewrite Hn, Ht.
Qed.

Lemma registered_type w u :
  registered w u -> exists ns, units w !! type u = Some ns /\ ns !! name u = Some u.
Proof.
  unfold registered, lookup_unit. destruct (units w !! type u) as [ns|]; [|done].
  simpl. eauto.
Qed.

Lemma Measure_as_more_measures l arg w :
  Inv w -> (forall u, arg = AUnit u -> registered w u) ->
  more_measures w (Measure_as l arg w).2.
Proof.
  intros HI Harg.
  destruct (heap w !! l) as [m|] eqn:Hl; last first.
  { unfold Measure_as, bind, deref, bind, get. rewrite Hl. apply more_measures_refl. }
  pose proof (inv_heap w HI l m Hl) as Hm.
  destruct arg as [u|key].
  - rewrite (Measure_as_unit w l m u Hl). apply convert_more_measures; auto.
  - destruct (registered_type w (unit m) (unit_registered w m Hm)) as (ns & Hns & _).
    rewrite (Measure_as_name w l m key ns Hl Hns).
    destruct (ns !! key) as [u|] eqn:Hk; [|apply more_measures_refl].
    apply convert_more_measures; [done|].
    apply (registered_lookup w (type (unit m)) key); [apply HI|].
    unfold lookup_unit. by rewrite Hns.
Qed.

Lemma combine_more_measures operation m m' w :
  measure_ok w m -> measure_ok w m' -> more_measures w (combine operation m m' w).2.
Proof.
  intros Hm Hm'. unfold combine.
  destruct (isComparable (unit m) (unit m')); simpl; [|apply more_measures_refl].
  apply Measure_number_more_measures; [|apply Hm].
  apply Math_min_in_range; [apply Hm | apply Hm'].
Qed.

Lemma method_more_measures operation l m value unit precision w :
  Inv w -> heap w !! l = Some m -> registered_opt w unit ->
  more_measures w (method operation l value unit precision w).2.
Proof.
  intros HI Hl Hu.
  pose proof (inv_heap w HI l m Hl) as Hm.
  destruct (is_Measure value) eqn:Hv.
  { destruct value as [| | | | |l']; try done.
    destruct (heap w !! l') as [m'|] eqn:Hl'.
    - rewrite (method_of_Measure w operation l m l' m') by done.
      apply combine_more_measures; [done|]. by apply (inv_heap w HI l').
    - unfold method. unfold bind at 1, ret at 1.
      unfold bind at 1. rewrite (deref_run w l m Hl).
      unfold bind, deref, bind, get. rewrite Hl'. apply more_measures_refl. }
  destruct (isNaN (Number value)) eqn:HN.
  { rewrite method_of_NaN by done. apply more_measures_refl. }
  destruct (unit_or_default_registered w unit HI Hu) as (u & Hd & Hr).
  destruct (method_of_value w operation l m value unit precision u Hl Hv HN Hd)
    as (v & Hval & ->).
  set (other := {| val := v; raw := Number value; unit := u;
                   precision := clamp (default_precision precision) |}).
  assert (measure_ok w other) as Hother.
  { split; simpl; try done. apply clamp_in_range, default_precision_not_NaN. }
  eapply more_measures_trans; [by apply more_measures_alloc|].
  apply combine_more_measures; by apply (measure_ok_units w).
Qed.

Lemma invoke_more_measures l m name' value unit precision w :
  Inv w -> heap w !! l = Some m -> registered_opt w unit ->
  more_measures w (invoke l name' value unit precision w).2.
Proof.
  intros HI Hl Hu. unfold invoke, bind, get.
  destruct (prototype w !! name') as [operation|]; [|apply more_measures_refl].
  by eapply method_more_measures.
Qed.

(** What a registration that succeeds does to the world. *)
Lemma Unit_register_ok type' name' abbr' (scale' : number) w :
  validNameRE type' = true ->
  validNameRE name' = true ->
  lookup_unit w type' name' = None ->
  exists w',
    Unit_register type' name' abbr' scale' w = (inr (), w') /\
    (forall t n, lookup_unit w' t n
                 = if decide (t = type' /\ n = name')
                   then Some (new_unit type' name' abbr' scale')
                   else lookup_unit w t n) /\
    ops w' = ops w /\ listeners w' = listeners w /\ prototype w' = prototype w /\
    heap w' = heap w /\ calls w' = calls w.
Proof.
  intros Ht Hn Hfree. rewrite Unit_register_run, Ht, Hn. simpl.
  unfold lookup_unit in Hfree.
  destruct (units w !! type') as [ns|] eqn:Hns; simpl in Hfree.
  - rewrite Hfree. eexists. split; [done|]. repeat split.
    intros t n. unfold lookup_unit. simpl.
    destruct (decide (t = type')) as [->|Hne].
    + rewrite lookup_insert_eq. simpl.
      destruct (decide (n = name')) as [->|Hne'].
      * rewrite lookup_insert_eq. by rewrite decide_True.
      * rewrite lookup_insert_ne by done. rewrite decide_False by (intros [? ?]; congruence).
        by rewrite Hns.
    + rewrite lookup_insert_ne by done. by rewrite decide_False by (intros [? ?]; congruence).
  - eexists. split; [done|]. repeat split; try (unfold define_type; by case_match).
    intros t n. unfold lookup_unit. simpl. rewrite units_define_type.
    destruct (decide (t = type')) as [->|Hne].
    + rewrite lookup_insert_eq. simpl. rewrite Hns. simpl.
      destruct (decide (n = name')) as [->|Hne'].
      * rewrite lookup_singleton_eq. by rewrite decide_True.
      * rewrite lookup_singleton_ne by done. by rewrite decide_False by (intros [? ?]; congruence).
    + rewrite !lookup_insert_ne by done. by rewrite decide_False by (intros [? ?]; congruence).
Qed.

(** A registration that fails leaves the world as it was. *)
Lemma Unit_register_fail type' name' abbr' (scale' : number) w e w' :
  Unit_register type' name' abbr' scale' w = (inl e, w') -> w' = w.
Proof.
  rewrite Unit_register_run.
  repeat case_match; by intros [= _ <-].
Qed.

Lemma Unit_register_cases type' name' abbr' (scale' : number) w :
  (exists e, Unit_register type' name' abbr' scale' w = (inl e, w)) \/
  (validNameRE type' = true /\ validNameRE name' = true /\
   lookup_unit w type' name' = None).
Proof.
  rewrite Unit_register_run. unfold lookup_unit.
  destruct (validNameRE type'); simpl; [|eauto].
  destruct (validNameRE name'); simpl; [|eauto].
  destruct (units w !! type') as [ns|]; simpl; [|by right].
  destruct (ns !! name'); eauto.
Qed.

Lemma Unit_register_Inv type' name' abbr' (scale' : number) w :
  Inv w -> Inv (Unit_register type' name' abbr' scale' w).2.
Proof.
  intros HI.
  destruct (Unit_register_cases type' name' abbr' scale' w)
    as [[e ->]|(Ht & Hn & Hfree)]; [done|].
  destruct (Unit_register_ok type' name' abbr' scale' w Ht Hn Hfree)
    as (w' & -> & Hl & Ho & Hls & Hp & Hh & Hc).
  simpl. destruct HI. split.
  - intros t n u. rewrite Hl. case_decide as Hd.
    + destruct Hd as [-> ->]. by intros [= <-].
    + apply inv_units0.
  - rewrite Hl. case_decide; [done | apply inv_nonUnited0].
  - by rewrite Hls.
  - by rewrite Hp, Ho.
  - intros l m. rewrite Hh. intros Hm. destruct (inv_heap0 l m Hm) as [H1 H2 H3].
    split; try done. unfold registered in *. rewrite Hl.
    case_decide as Hd; [|done].
    destruct Hd as [Hd1 Hd2]. rewrite Hd1, Hd2 in H3. congruence.
  - unfold calls_ok. by rewrite Hc, Hls.
Qed.

Lemma operations_register_Inv name' func w :
  Inv w -> Inv (operations_register name' func w).2.
Proof.
  intros HI. rewrite operations_register_run.
  destruct (bool_decide (is_Some (ops w !! name'))); [done|]. simpl.
  set (w1 := set_ops <[name' := func]> w).
  destruct (notified_frame (listeners w) name' func w1) as (Hu & _ & Ho & Hl & Hh).
  fold (listeners w1) in *.
  destruct HI. split.
  - unfold units_ok, lookup_unit. by rewrite Hu.
  - unfold lookup_unit. by rewrite Hu.
  - by rewrite Hl.
  - rewrite notified_prototype, Ho. simpl.
    rewrite bool_decide_true by done. by rewrite inv_prototype0.
  - intros l m. rewrite Hh. intros Hm.
    apply (measure_ok_units w); [done|]. apply (inv_heap0 l m Hm).
  - intros c. rewrite notified_calls, Hl. simpl.
    intros [Hc|Hc]%elem_of_app; [by apply inv_calls0|].
    apply list_elem_of_In in Hc. apply in_map_iff in Hc as (id & <- & Hid).
    simpl. by apply list_elem_of_In.
Qed.

Lemma observers_app ls ls' : observers (ls ++ ls') = observers ls ++ observers ls'.
Proof. apply omap_app. Qed.

Lemma operations_onRegister_Inv listener w :
  Inv w -> Inv (operations_onRegister listener w).2.
Proof.
  intros []. split.
  - done.
  - done.
  - apply elem_of_app. by left.
  - done.
  - intros l m Hm. apply (measure_ok_units w); [done|]. apply (inv_heap0 l m Hm).
  - intros c Hc.
    change (listeners (operations_onRegister listener w).2)
      with (listeners w ++ [listener]).
    rewrite observers_app. apply elem_of_app. left. by apply inv_calls0.
Qed.

(** ** The worlds a program can be in *)

(** One call of the library by a consumer.  The units and instances it passes
    are some that exist. *)
Inductive step (w : World number) : World number -> Prop :=
| step_Unit_register type' name' abbr' scale' :
    step w (Unit_register type' name' abbr' scale' w).2
| step_operations_register name' func :
    step w (operations_register name' func w).2
| step_operations_onRegister id :
    step w (operations_onRegister (Observer id) w).2
| step_Measure value unit precision :
    registered_opt w unit ->
    step w (Measure value unit precision w).2
| step_Measure_as l arg :
    is_Some (heap w !! l) ->
    (forall u, arg = AUnit u -> registered w u) ->
    step w (Measure_as l arg w).2
| step_invoke l name' value unit precision :
    is_Some (heap w !! l) ->
    registered_opt w unit ->
    step w (invoke l name' value unit precision w).2.

Lemma step_Inv w w' : Inv w -> step w w' -> Inv w'.
Proof.
  intros HI Hstep. destruct Hstep as [| | | |l arg [m Hl]|l name' value unit precision [m Hl]].
  - by apply Unit_register_Inv.
  - by apply operations_register_Inv.
  - by apply operations_onRegister_Inv.
  - eapply Inv_more_measures; [done|]. by apply Measure_more_measures.
  - eapply Inv_more_measures; [done|]. by apply Measure_as_more_measures.
  - eapply Inv_more_measures; [done|]. by eapply invoke_more_measures.
Qed.

(** ** The loaded module *)

Definition preserves {A} (P : World number -> Prop) (c : M number A) : Prop :=
  forall w, P w -> P (c w).2.

Lemma preserves_bind {A B} (P : World number -> Prop) (c : M number A) (k : A -> M number B) :
  preserves P c -> (forall a, preserves P (k a)) -> preserves P (bind c k).
Proof.
  intros Hc Hk w Hw. unfold bind. specialize (Hc w Hw).
  destruct (c w) as [[e|a] w']; [done|]. by apply Hk.
Qed.

Lemma units_ok_Unit_register type' name' abbr' (scale' : number) :
  preserves units_ok (Unit_register type' name' abbr' scale').
Proof.
  intros w Hok.
  destruct (Unit_register_cases type' name' abbr' scale' w)
    as [[e ->]|(Ht & Hn & Hfree)]; [done|].
  destruct (Unit_register_ok type' name' abbr' scale' w Ht Hn Hfree)
    as (w' & -> & Hl & _).
  intros t n u. simpl. rewrite Hl. case_decide as Hd.
  - destruct Hd as [-> ->]. by intros [= <-].
  - apply Hok.
Qed.

Lemma units_ok_operations_register name' func :
  preserves units_ok (operations_register name' func).
Proof.
  intros w Hok. rewrite operations_register_run.
  destruct (bool_decide (is_Some (ops w !! name'))); [done|]. simpl.
  destruct (notified_frame (listeners w) name' func (set_ops <[name' := func]> w))
    as (Hu & _).
  unfold units_ok, lookup_unit. rewrite Hu. apply Hok.
Qed.

Lemma units_ok_loaded : units_ok loaded.
Proof.
  assert (preserves units_ok module_body) as H.
  { unfold module_body.
    repeat (apply preserves_bind; [|intros _]);
      try apply units_ok_Unit_register;
      try apply units_ok_operations_register;
      by intros w Hw. }
  apply H. intros t n u. unfold lookup_unit. simpl. by rewrite lookup_empty.
Qed.

Lemma Inv_loaded : Inv loaded.
Proof.
  split.
  - apply units_ok_loaded.
  - vm_compute. eauto.
  - vm_compute. left.
  - reflexivity.
  - intros l m. vm_compute. by destruct l.
  - intros c. vm_compute. by intros ?%elem_of_nil.
Qed.

Definition reachable (w : World number) : Prop := rtc step loaded w.

Lemma reachable_Inv w : reachable w -> Inv w.
Proof.
  revert w. apply rtc_ind_r.
  - apply Inv_loaded.
  - intros w1 w2 _ Hstep IH. by apply (step_Inv w1).
Qed.

Lemma reachable_loaded : reachable loaded.
Proof. apply rtc_refl. Qed.

Lemma reachable_step (w w' : World number) : reachable w -> step w w' -> reachable w'.
Proof. intros H Hs. by eapply rtc_r. Qed.

Lemma Measure_constructs (w : World number) value unit precision :
  reachable w ->
  is_Measure value = false ->
  isNaN (Number value) = false ->
  exists u v,
    unit_or_default w unit = Some u /\
    Number_toPrecision (Number value) (clamp (default_precision precision)) = inr v /\
    Measure value unit precision w
    = (inr (length (heap w)),
       set_heap (fun h => h ++ [{| val := v; raw := Number value; unit := u;
                                   precision := clamp (default_precision precision) |}]) w).
Proof.
  intros Hw Hv HN.
  assert (exists u, unit_or_default w unit = Some u) as [u Hu].
  { destruct unit as [u|]; [by exists u|].
    apply (inv_nonUnited w (reachable_Inv w Hw)). }
  destruct (Measure_new value unit precision w u Hv HN Hu) as (v & Hval & Hrun).
  by exists u, v.
Qed.

Lemma invoke_registered (w : World number) l name' operation value unit' precision' :
  reachable w ->
  ops w !! name' = Some operation ->
  invoke l name' value unit' precision' w
  = method operation l value unit' precision' w.
Proof.
  intros Hw Hop. unfold invoke, bind, get.
  by rewrite (inv_prototype w (reachable_Inv w Hw)), Hop.
Qed.

(** What a listener of a consumer is called with when [func] is registered as
    [name]: it finds the operation in the registry. *)
Definition call_of (name' : string) (func : Fn number) (id : nat) : Call number :=
  {| call_listener := id; call_name := name'; call_func := func;
     call_sees := Some func |}.

Lemma operations_register_ok (w : World number) name' func :
  ops w !! name' = None ->
  exists w',
    operations_register name' func w = (inr (), w') /\
    units w' = units w /\ heap w' = heap w /\
    ops w' = <[name' := func]> (ops w) /\
    listeners w' = listeners w /\
    calls w' = calls w ++ map (call_of name' func) (observers (listeners w)) /\
    prototype w' = if bool_decide (Mount ∈ listeners w)
                   then <[name' := func]> (prototype w) else prototype w.
Proof.
  intros Hfree. rewrite operations_register_run.
  rewrite bool_decide_false by (rewrite Hfree; by intros [? ?]).
  eexists. split; [reflexivity|].
  destruct (notified_frame (listeners w) name' func (set_ops <[name' := func]> w))
    as (Hu & _ & Ho & Hl & Hh).
  rewrite Hu, Hh, Ho, Hl, notified_calls, notified_prototype.
  cbn [units heap ops listeners calls prototype set_ops].
  by rewrite lookup_insert_eq.
Qed.



End ProgramFacts.

(** * What the calls keep *)

Section Lifetime.
Context {number : Type} {Num : JSNumber number} {Laws : JSNumberLaws Num}.

(** ** Names the program uses itself *)

(** The registry keeps the operations in a plain object, which it asks
    [hasOwnProperty]; the methods are properties of the prototype of the
    instances, where [as] is, under the fields of the instances, and where
    the host looks for [valueOf] and [toString].  An operation of one of
    these names takes the place of what the program or the host uses: one
    named [hasOwnProperty] answers for the registry whether a name is taken,
    one named [as] is called in place of the conversion.  The embedding keeps
    the operations apart from all of these: it is the program in the worlds
    that have no operation of such a name. *)
Definition own_names : list string :=
  ["as"; "val"; "raw"; "unit"; "precision"; "valueOf"; "toString";
   "hasOwnProperty"; "__proto__"].

Definition is_own_name (k : string) : bool := existsb (String.eqb k) own_names.

Definition plain (w : World number) : bool :=
  forallb (fun k => match ops w !! k with None => true | Some _ => false end) own_names.


(** ** Names the host uses *)

(** [Unit], the constructor of a unit type and [Measure] are functions, and
    the program keeps the unit types, the units and the aliases as
    properties of them: [Unit[type]], [Unit[type][name]] and
    [type in Measure] also find what every function has.  These are the
    properties of a function object and those it inherits; [caller] and
    [arguments] raise a TypeError when read. *)
Definition function_names : list string :=
  ["length"; "name"; "prototype"; "arguments"; "caller"; "apply"; "bind";
   "call"; "constructor"; "toString"; "toLocaleString"; "valueOf";
   "hasOwnProperty"; "isPrototypeOf"; "propertyIsEnumerable"; "__proto__";
   "__defineGetter__"; "__defineSetter__"; "__lookupGetter__";
   "__lookupSetter__"].

(** The constructor of a unit type is made by evaluating the text of a
    function expression of the type's name (line 104), in strict code: a
    name the language reserves there matches [validNameRE] and is a
    SyntaxError. *)
Definition reserved_words : list string :=
  ["break"; "case"; "catch"; "class"; "const"; "continue"; "debugger";
   "default"; "delete"; "do"; "else"; "enum"; "export"; "extends"; "false";
   "finally"; "for"; "function"; "if"; "import"; "in"; "instanceof"; "new";
   "null"; "return"; "super"; "switch"; "this"; "throw"; "true"; "try";
   "typeof"; "var"; "void"; "while"; "with"; "implements"; "interface";
   "let"; "package"; "private"; "protected"; "public"; "static"; "yield";
   "await"; "eval"; "arguments"].

Definition member (k : string) (ks : list string) : bool :=
  existsb (String.eqb k) ks.

Definition is_function_name (k : string) : bool := member k function_names.

(** A name of a unit type that [Unit] has no property of but those the
    program files: not [register] (line 92), no property of a function, no
    reserved word. *)
Definition ordinary_type (t : string) : bool :=
  negb (member t ("register" :: function_names ++ reserved_words)).

(** A name of a unit that the constructor of a unit type has no property of
    but those the program files: not [property] (line 109), no property of a
    function. *)
Definition ordinary_name (n : string) : bool :=
  negb (member n ("property" :: function_names)).

(** The worlds whose unit types and units all have such names.  The
    embedding is the program there. *)
Definition ordinary (w : World number) : bool :=
  forallb
    (fun tns : string * gmap string (Unit number) =>
       ordinary_type tns.1 &&
       forallb (fun nu : string * Unit number => ordinary_name nu.1)
               (map_to_list tns.2))
    (map_to_list (units w)).



Lemma rtc_step_Inv (w w' : World number) : Inv w -> rtc step w w' -> Inv w'.
Proof.
  intros HI. revert w'. apply rtc_ind_r; [done|].
  intros w1 w2 _ Hstep IH. by apply (step_Inv w1).
Qed.

(** ** Nothing is removed *)

(** [w'] has what [w] has: the units, the operations, the instances, each as
    it was, and the listeners in their order. *)
Record keeps (w w' : World number) : Prop := {
  keeps_units : forall t n u, lookup_unit w t n = Some u -> lookup_unit w' t n = Some u;
  keeps_ops : forall k f, ops w !! k = Some f -> ops w' !! k = Some f;
  keeps_heap : forall l m, heap w !! l = Some m -> heap w' !! l = Some m;
  keeps_listeners : listeners w `prefix_of` listeners w'
}.

Lemma keeps_refl w : keeps w w.
Proof. by split. Qed.

Lemma keeps_trans w1 w2 w3 : keeps w1 w2 -> keeps w2 w3 -> keeps w1 w3.
Proof.
  intros [] []. split; eauto.
  by etrans.
Qed.

Lemma more_measures_keeps w w' : more_measures w w' -> keeps w w'.
Proof.
  intros (Hu & _ & Ho & Hl & _ & _ & ms & Hh & _). split.
  - unfold lookup_unit. by rewrite Hu.
  - by rewrite Ho.
  - intros l m Hm. rewrite Hh. by apply lookup_app_l_Some.
  - by rewrite Hl.
Qed.

Lemma step_frame w w' : Inv w -> step w w' -> keeps w w'.
Proof.
  intros HI Hstep.
  destruct Hstep as [t n a s|name' func|id|value unit' precision' Hu
                    |l arg [m Hl] Harg|l name' value unit' precision' [m Hl] Hu].
  - destruct (Unit_register_cases t n a s w) as [[e ->]|(Ht & Hn & Hfree)];
      [apply keeps_refl|].
    destruct (Unit_register_ok t n a s w Ht Hn Hfree)
      as (w' & -> & Hlk & Ho & Hls & _ & Hh & _).
    cbn [snd]. split.
    + intros t0 n0 u Hu. rewrite Hlk. case_decide as Hd; [|done].
      destruct Hd as [-> ->]. congruence.
    + by rewrite Ho.
    + by rewrite Hh.
    + by rewrite Hls.
  - destruct (ops w !! name') as [f|] eqn:Hop.
    + rewrite operations_register_run.
      rewrite bool_decide_true by (by rewrite Hop). apply keeps_refl.
    + destruct (operations_register_ok w name' func Hop)
        as (w' & -> & Hu & Hh & Ho & Hls & _).
      cbn [snd]. split.
      * unfold lookup_unit. by rewrite Hu.
      * intros k f Hk. rewrite Ho.
        rewrite lookup_insert_ne; [done|]. intros ->. congruence.
      * by rewrite Hh.
      * by rewrite Hls.
  - split; try done. by exists [Observer id].
  - by apply more_measures_keeps, Measure_more_measures.
  - by apply more_measures_keeps, Measure_as_more_measures.
  - eapply more_measures_keeps, invoke_more_measures; done.
Qed.

Lemma steps_frame w w' : Inv w -> rtc step w w' -> keeps w w'.
Proof.
  intros HI. revert w'. apply rtc_ind_r; [apply keeps_refl|].
  intros w1 w2 Hsteps Hstep IH.
  apply (keeps_trans w w1 w2); [done|].
  apply step_frame; [|done]. by apply (rtc_step_Inv w).
Qed.

(** ** The value of an instance is its magnitude, rounded *)

Definition rounded (m : measure number) : Prop :=
  Number_toPrecision (raw m) (precision m) = inr (val m).

(** A computation that only adds instances, each of them rounded, and
    leaves the rest of the world as it is. *)
Definition allocates {A} (c : M number A) : Prop :=
  forall w, exists ms, (c w).2 = set_heap (fun h => h ++ ms) w /\ Forall rounded ms.

Lemma set_heap_nil (w : World number) : set_heap (fun h => h ++ []) w = w.
Proof. destruct w. unfold set_heap. simpl. by rewrite app_nil_r. Qed.

Lemma set_heap_app (ms ms' : list (measure number)) w :
  set_heap (fun h => h ++ ms') (set_heap (fun h => h ++ ms) w)
  = set_heap (fun h => h ++ (ms ++ ms')) w.
Proof. unfold set_heap. simpl. by rewrite app_assoc. Qed.

Lemma allocates_pure {A} (c : M number A) :
  (forall w, (c w).2 = w) -> allocates c.
Proof. intros H w. exists []. by rewrite H, set_heap_nil. Qed.

Lemma allocates_bind {A B} (c : M number A) (k : A -> M number B) :
  allocates c -> (forall a, allocates (k a)) -> allocates (bind c k).
Proof.
  intros Hc Hk w. unfold bind.
  destruct (Hc w) as (ms & Hh & Hms).
  destruct (c w) as [[e|a] w1]; [by exists ms|].
  destruct (Hk a w1) as (ms' & Hh' & Hms').
  exists (ms ++ ms'). split.
  - simpl in Hh. by rewrite Hh', Hh, set_heap_app.
  - by apply Forall_app.
Qed.

Lemma allocates_Unit_reserved_nonUnited : allocates Unit_reserved_nonUnited.
Proof.
  apply allocates_pure. intros w. unfold Unit_reserved_nonUnited, bind, get.
  by repeat case_match.
Qed.

Lemma allocates_Measure value unit precision :
  allocates (Measure value unit precision).
Proof.
  destruct (is_Measure value) eqn:Hv.
  { destruct value; try done. by apply allocates_pure. }
  rewrite Measure_unfold by done.
  destruct (isNaN (Number value)); [by apply allocates_pure|].
  apply allocates_bind.
  { destruct unit; [by apply allocates_pure | apply allocates_Unit_reserved_nonUnited]. }
  intros u w. unfold bind, lift, alloc, bind, get, modify, ret.
  destruct (Number_toPrecision _ _) as [e|v] eqn:Hval.
  - exists []. by rewrite set_heap_nil.
  - eexists [_]. split; [done|]. by constructor.
Qed.

Lemma allocates_deref l : allocates (deref l).
Proof.
  apply allocates_pure. intros w. unfold deref, bind, get. by case_match.
Qed.

Lemma allocates_Measure_as l arg : allocates (Measure_as l arg).
Proof.
  unfold Measure_as. apply allocates_bind; [apply allocates_deref|]. intros this.
  apply allocates_bind.
  - destruct arg; apply allocates_pure; intros w; [done|].
    unfold bind, get. by repeat case_match.
  - intros u. case_match; [by apply allocates_pure | apply allocates_Measure].
Qed.

Lemma allocates_method operation l value unit precision :
  allocates (method operation l value unit precision).
Proof.
  unfold method. apply allocates_bind.
  { destruct value; try apply allocates_Measure. by apply allocates_pure. }
  intros l'. apply allocates_bind; [apply allocates_deref|]. intros this.
  apply allocates_bind; [apply allocates_deref|]. intros other.
  case_match; [by apply allocates_pure | apply allocates_Measure].
Qed.

Lemma allocates_invoke l name' value unit precision :
  allocates (invoke l name' value unit precision).
Proof.
  unfold invoke. apply allocates_bind; [by apply allocates_pure|]. intros w.
  case_match; [apply allocates_method | by apply allocates_pure].
Qed.

Lemma allocates_heap {A} (c : M number A) w :
  allocates c -> exists ms, heap (c w).2 = heap w ++ ms /\ Forall rounded ms.
Proof. intros Hc. destruct (Hc w) as (ms & -> & Hms). by exists ms. Qed.

Lemma step_rounded w w' :
  step w w' -> exists ms, heap w' = heap w ++ ms /\ Forall rounded ms.
Proof.
  intros [t n a s|name' func|id|value unit' precision' Hu
         |l arg _ _|l name' value unit' precision' _ _].
  - exists []. rewrite app_nil_r. split; [|done].
    destruct (Unit_register_cases t n a s w) as [[e ->]|(Ht & Hn & Hfree)]; [done|].
    by destruct (Unit_register_ok t n a s w Ht Hn Hfree)
      as (w1 & -> & _ & _ & _ & _ & Hh & _).
  - exists []. rewrite app_nil_r. split; [|done].
    rewrite operations_register_run. case_match; [done|]. cbn [snd].
    by destruct (notified_frame (listeners w) name' func (set_ops <[name' := func]> w))
      as (_ & _ & _ & _ & ->).
  - exists []. by rewrite app_nil_r.
  - apply allocates_heap, allocates_Measure.
  - apply allocates_heap, allocates_Measure_as.
  - apply allocates_heap, allocates_invoke.
Qed.

Lemma heap_loaded : heap (loaded : World number) = [].
Proof. vm_compute. reflexivity. Qed.

Lemma reachable_rounded w l m :
  reachable w -> heap w !! l = Some m -> rounded m.
Proof.
  intros Hw. revert w Hw l m.
  apply (rtc_ind_r (fun w => forall l m, heap w !! l = Some m -> rounded m)).
  - intros l m. by rewrite heap_loaded.
  - intros w1 w2 _ Hstep IH l m.
    destruct (step_rounded w1 w2 Hstep) as (ms & -> & Hms).
    intros [H|[_ H]]%lookup_app_Some; [by eapply IH|].
    by eapply Forall_lookup_1.
Qed.

(** ** The unit types on [Measure] *)

(** [Measure] has a property for every unit type whose name does not start
    with an underscore, and none that starts with one. *)
Definition exposes_ok (w : World number) : Prop :=
  (forall t, t ∈ Measure_props w -> starts_with_underscore t = false) /\
  (forall t, is_Some (units w !! t) -> starts_with_underscore t = false ->
             t ∈ Measure_props w).

Lemma exposes_ok_frame w w' :
  units w' = units w -> Measure_props w' = Measure_props w ->
  exposes_ok w -> exposes_ok w'.
Proof. intros Hu Hp H. unfold exposes_ok. by rewrite Hu, Hp. Qed.

Lemma exposes_ok_Unit_register type' name' abbr' (scale' : number) :
  preserves exposes_ok (Unit_register type' name' abbr' scale').
Proof.
  intros w [H1 H2]. rewrite Unit_register_run.
  destruct (negb (validNameRE type')); [done|].
  destruct (negb (validNameRE name')); [done|].
  destruct (units w !! type') as [ns|] eqn:Ht.
  - destruct (ns !! name'); [done|]. cbn [snd]. split; [done|].
    intros t. cbn [units set_units]. intros Hs Hund. apply H2; [|done].
    destruct (decide (t = type')) as [->|Hne]; [by rewrite Ht|].
    by rewrite lookup_insert_ne in Hs.
  - cbn [snd]. unfold define_type.
    destruct (negb (bool_decide (type' ∈ Measure_props w)) &&
              negb (starts_with_underscore type')) eqn:Hc;
      split; cbn [Measure_props units set_units set_Measure_props].
    + apply andb_prop in Hc as [_ Hund%negb_true_iff].
      intros t [->%elem_of_singleton|Hin]%elem_of_union; [done | by apply H1].
    + intros t Hs Hund. apply elem_of_union.
      destruct (decide (t = type')) as [->|Hne]; [left; by apply elem_of_singleton|].
      right. apply H2; [|done]. by rewrite !lookup_insert_ne in Hs.
    + done.
    + intros t Hs Hund.
      destruct (decide (t = type')) as [->|Hne].
      * rewrite Hund, andb_true_r in Hc. apply negb_false_iff in Hc.
        by apply bool_decide_eq_true in Hc.
      * apply H2; [|done]. by rewrite !lookup_insert_ne in Hs.
Qed.

Lemma exposes_ok_operations_register name' func :
  preserves exposes_ok (operations_register name' func).
Proof.
  intros w H. rewrite operations_register_run. case_match; [done|]. cbn [snd].
  destruct (notified_frame (listeners w) name' func (set_ops <[name' := func]> w))
    as (Hu & Hp & _).
  by apply (exposes_ok_frame w).
Qed.

Lemma exposes_ok_loaded : exposes_ok loaded.
Proof.
  assert (preserves exposes_ok module_body) as H.
  { unfold module_body.
    repeat (apply preserves_bind; [|intros _]);
      try apply exposes_ok_Unit_register;
      try apply exposes_ok_operations_register.
    - by intros w Hw.
    - intros w [H1 H2]. split; cbn [snd modify Measure_props units set_Measure_props].
      + intros t [Ht|Ht]%elem_of_union; [|by apply H1].
        set_unfold in Ht. by destruct Ht as [[-> | ->] | ->].
      + intros t Hs Hund. apply elem_of_union. right. by apply H2. }
  apply H. split.
  - intros t. cbn. by intros ?%elem_of_empty.
  - intros t. cbn. rewrite lookup_empty. by intros [? ?].
Qed.

Lemma step_exposes w w' : Inv w -> exposes_ok w -> step w w' -> exposes_ok w'.
Proof.
  intros HI He Hstep.
  destruct Hstep as [t n a s|name' func|id|value unit' precision' Hu
                    |l arg [m Hl] Harg|l name' value unit' precision' [m Hl] Hu].
  - by apply exposes_ok_Unit_register.
  - by apply exposes_ok_operations_register.
  - done.
  - destruct (Measure_more_measures value unit' precision' w HI Hu) as (H1 & H2 & _).
    by apply (exposes_ok_frame w).
  - destruct (Measure_as_more_measures l arg w HI Harg) as (H1 & H2 & _).
    by apply (exposes_ok_frame w).
  - destruct (invoke_more_measures l m name' value unit' precision' w HI Hl Hu)
      as (H1 & H2 & _).
    by apply (exposes_ok_frame w).
Qed.

Lemma reachable_exposes w : reachable w -> exposes_ok w.
Proof.
  intros Hw. cut (Inv w /\ exposes_ok w); [by intros [_ ?]|].
  revert w Hw. apply rtc_ind_r.
  - split; [apply Inv_loaded | apply exposes_ok_loaded].
  - intros w1 w2 _ Hstep [HI He]. split; [by apply (step_Inv w1)|].
    by apply (step_exposes w1).
Qed.

(** ** Calls that succeed *)

(** A method called with the arguments of [Measure] constructs its operand
    from them. *)
Lemma invoke_constructs w l name' value unit' precision' :
  is_Some (prototype w !! name') ->
  invoke l name' value unit' precision' w
  = (l' <- Measure value unit' precision' ;;
     invoke l name' (VMeasure l') None VUndefined) w.
Proof.
  intros [fn Hfn].
  unfold invoke at 1, bind at 1, get at 1. rewrite Hfn. unfold method.
  assert (match value with VMeasure l0 => ret l0 | _ => Measure value unit' precision' end
          = Measure value unit' precision') as -> by (by destruct value).
  unfold bind at 1. unfold bind at 3.
  destruct (allocates_Measure value unit' precision' w) as (ms & Hw1 & _).
  destruct (Measure value unit' precision' w) as [[e|l'] w1]; [done|].
  cbn [snd] in Hw1. unfold invoke, bind at 3, get at 1.
  assert (prototype w1 = prototype w) as -> by (by rewrite Hw1).
  rewrite Hfn. unfold method. by unfold bind at 3, ret at 1.
Qed.

End Lifetime.

(** * The claims *)

(** The program runs on binary64 numbers: the claims are stated there, for
    the worlds the calls of the library reach from the loaded module.  What
    is said of operations and methods is said of a [plain] world, what is
    said of units and their types of an [ordinary] one. *)
Section Binary64.

Definition nonUnited : Unit float := new_unit "_reserved" "nonUnited" "" (numeral "1").
Definition kilometer : Unit float := new_unit "distance" "kilometer" "km" (numeral "1000").
Definition meter : Unit float := new_unit "distance" "meter" "m" (numeral "1").
Definition hour : Unit float := new_unit "time" "hour" "hr" (numeral "3600").

(** ** Construction *)

(** C8: a value that is already a Measure instance is returned by [Measure]
    as it is, the same instance, whatever unit and precision come with it,
    and nothing is constructed. *)
Theorem Measure_identity (l : loc) (unit : option (Unit float)) (precision : JSValue float) (w : World float) :
  Measure (VMeasure l) unit precision w = (inr l, w).
Proof. reflexivity. Qed.

(** C6: the precision argument is coerced to a number when it is not one:
    a number is taken as it is, a text is read as a numeric literal
    ([StringToNumber]), [true] is 1, [false] and [null] are 0, and
    [undefined] is NaN, as is a Measure, which the host converts through the
    [valueOf] and [toString] of every object where no operation of these
    names is registered: a precision that is a Measure is meant in a plain
    world.  NaN becomes 15, any other number is clamped into
    [1, 15].  Precision 0 gives 1, 99 gives 15 and 'bogus' gives 15; the text
    '7' gives 7, the text ' 0x63 ' 15, the text of a no-break space and 5
    gives 5, [null] 1 and a missing precision 15. *)
Theorem Measure_precision (w : World float) value unit' precision' :
  reachable w ->
  is_Measure precision' = false \/ plain w = true ->
  is_Measure value = false ->
  isNaN (Number value) = false ->
  exists m,
    Measure value unit' precision' w
    = (inr (length (heap w)), set_heap (fun h => h ++ [m]) w) /\
    precision m
    = (let p := match precision' with
                | VNumber p => p
                | VString s => StringToNumber s
                | VBoolean true => lit 1
                | VBoolean false | VNull => lit 0
                | VUndefined | VMeasure _ => NaN
                end in
       if isNaN p then lit 15 else Math_max (Math_min p (lit 15)) (lit 1)) /\
    in_range (precision m) = true /\
    (precision' = VNumber (lit 0) -> precision m = lit 1) /\
    (precision' = VNumber (lit 99) -> precision m = lit 15) /\
    (precision' = VString "bogus" -> precision m = lit 15) /\
    (precision' = VString "7" -> precision m = lit 7) /\
    (precision' = VString " 0x63 " -> precision m = lit 15) /\
    (precision' = VString (bytes [194; 160]%N +:+ "5") -> precision m = lit 5) /\
    (precision' = VNumber (numeral "-3") -> precision m = lit 1) /\
    (precision' = VNull -> precision m = lit 1) /\
    (precision' = VBoolean true -> precision m = lit 1) /\
    (precision' = VUndefined -> precision m = lit 15).
Proof.
  intros Hw _ Hv HN.
  destruct (Measure_constructs w value unit' precision' Hw Hv HN)
    as (u & v & Hu & Hval & Hrun).
  eexists. split; [exact Hrun|]. cbn [precision]. split; [|split].
  - assert (Number precision'
            = match precision' with
              | VNumber p => p
              | VString s => StringToNumber s
              | VBoolean true => lit 1
              | VBoolean false | VNull => lit 0
              | VUndefined | VMeasure _ => NaN
              end) as <- by (by destruct precision' as [| |[|]| | |]).
    cbv zeta. unfold default_precision.
    destruct (isNaN (Number precision')); [|done].
    apply clamp_id, in_range_MAX.
  - apply clamp_in_range, default_precision_not_NaN.
  - repeat split; intros ->; vm_compute; reflexivity.
Qed.

Lemma Measure_precision_witness :
  (exists m,
     Measure (VNumber (numeral "1.23456789")) None (VString "bogus") loaded
     = (inr 0%nat, set_heap (fun h => h ++ [m]) loaded) /\
     precision m = lit 15) /\
  (exists m,
     Measure (VNumber (numeral "1.23456789")) None (VString "7") loaded
     = (inr 0%nat, set_heap (fun h => h ++ [m]) loaded) /\
     precision m = lit 7).
Proof.
  split.
  - destruct (Measure_precision loaded (VNumber (numeral "1.23456789")) None
                (VString "bogus"))
      as (m & Hrun & _ & _ & _ & _ & Hbogus & _).
    + apply reachable_loaded.
    + left. reflexivity.
    + reflexivity.
    + vm_compute. reflexivity.
    + exists m. split; [exact Hrun | by apply Hbogus].
  - destruct (Measure_precision loaded (VNumber (numeral "1.23456789")) None
                (VString "7"))
      as (m & Hrun & _ & _ & _ & _ & _ & Hseven & _).
    + apply reachable_loaded.
    + right. vm_compute. reflexivity.
    + reflexivity.
    + vm_compute. reflexivity.
    + exists m. split; [exact Hrun | by apply Hseven].
Defined.

(** C7, as the program has it: a value is coerced to a number as a
    precision is (a text is read as a numeric literal, [true] is 1, [false]
    and [null] are 0, [undefined] is NaN).  A value whose coercion is NaN is
    refused with the invalid-value error; any other value, the infinities
    too, is stored as [raw], and [val] is [raw] rounded to the precision's
    number of significant digits.  A precision that is a Measure is meant in
    a plain world: the host converts it through [valueOf] and [toString]. *)
Theorem Measure_value (w : World float) value unit' precision' :
  reachable w ->
  is_Measure precision' = false \/ plain w = true ->
  is_Measure value = false ->
  let x := match value with
           | VNumber v => v
           | VString s => StringToNumber s
           | VBoolean true => lit 1
           | VBoolean false | VNull => lit 0
           | VUndefined | VMeasure _ => NaN
           end in
  if isNaN x then
    Measure value unit' precision' w
    = (inl (Err "A number is required, found [NaN]"), w)
  else
    exists m,
      Measure value unit' precision' w
      = (inr (length (heap w)), set_heap (fun h => h ++ [m]) w) /\
      raw m = x /\
      Number_toPrecision (raw m) (precision m) = inr (val m).
Proof.
  intros Hw _ Hv x.
  assert (x = Number value) as -> by (subst x; by destruct value as [| |[|]| | |]).
  destruct (isNaN (Number value)) eqn:HN.
  - by apply Measure_of_NaN.
  - destruct (Measure_constructs w value unit' precision' Hw Hv HN)
      as (u & v & Hu & Hval & Hrun).
    eexists. split; [exact Hrun|]. by split.
Qed.

Lemma Measure_value_witness :
  (exists m,
     Measure (VString "1.23456789") None (VNumber (lit 4)) loaded
     = (inr 0%nat, set_heap (fun h => h ++ [m]) loaded) /\
     raw m = numeral "1.23456789" /\
     Number_toPrecision (raw m) (precision m) = inr (val m)) /\
  (exists m,
     Measure (VString (bytes [194; 160]%N +:+ "12")) None (VNumber (lit 4)) loaded
     = (inr 0%nat, set_heap (fun h => h ++ [m]) loaded) /\
     raw m = lit 12) /\
  Measure (VString "12 km") None (VNumber (lit 4)) loaded
  = (inl (Err "A number is required, found [NaN]"), loaded) /\
  Measure (VString (bytes [226; 128; 139]%N +:+ "12")) None (VNumber (lit 4)) loaded
  = (inl (Err "A number is required, found [NaN]"), loaded).
Proof.
  split; [|split; [|split]].
  - assert (isNaN (StringToNumber "1.23456789" : float) = false) as HN
      by (vm_compute; reflexivity).
    pose proof (Measure_value loaded (VString "1.23456789") None (VNumber (lit 4))
                  reachable_loaded) as H.
    cbv beta iota zeta in H.
    rewrite HN in H. apply H; [left; reflexivity | reflexivity].
  - set (s := bytes [194; 160]%N +:+ "12").
    assert (StringToNumber s = (lit 12 : float)) as HV by (vm_compute; reflexivity).
    assert (isNaN (StringToNumber s : float) = false) as HN
      by (vm_compute; reflexivity).
    pose proof (Measure_value loaded (VString s) None (VNumber (lit 4))
                  reachable_loaded) as H.
    cbv beta iota zeta in H.
    rewrite HN in H. destruct H as (m & Hrun & Hraw & _);
      [right; vm_compute; reflexivity | reflexivity |].
    exists m. split; [exact Hrun|]. rewrite HV in Hraw. exact Hraw.
  - assert (isNaN (StringToNumber "12 km" : float) = true) as HN
      by (vm_compute; reflexivity).
    pose proof (Measure_value loaded (VString "12 km") None (VNumber (lit 4))
                  reachable_loaded) as H.
    cbv beta iota zeta in H.
    rewrite HN in H. apply H; [left; reflexivity | reflexivity].
  - set (s := bytes [226; 128; 139]%N +:+ "12").
    assert (isNaN (StringToNumber s : float) = true) as HN
      by (vm_compute; reflexivity).
    pose proof (Measure_value loaded (VString s) None (VNumber (lit 4))
                  reachable_loaded) as H.
    cbv beta iota zeta in H.
    rewrite HN in H. apply H; [left; reflexivity | reflexivity].
Defined.

(** C7, as it is stated, fails: positive infinity is not a finite number and
    [Measure] accepts it. *)
Lemma Measure_accepts_Infinity :
  isFinite (Number (VString "Infinity")) = false /\
  Measure (VString "Infinity") None VUndefined loaded
  = (inr 0%nat,
     set_heap (fun h => h ++ [{| val := infinity false; raw := infinity false;
                                 unit := nonUnited; precision := lit 15 |}]) loaded).
Proof. split; vm_compute; reflexivity. Qed.

(** The message of the invalid-value error shows the coerced value: it is the
    same for every refused value and names none of them. *)
Example Measure_error_shows_NaN :
  (Measure (VString "bogus") None VUndefined loaded).1
  = inl (Err "A number is required, found [NaN]").
Proof. reflexivity. Qed.

(** ** Precision *)

Definition is_integer (x : float) : bool :=
  match classify x with
  | CFin _ n d => (n mod Npos d =? 0)%N
  | _ => false
  end.

(** C9, as the program has it: the precision of every instance is a number in
    [1, 15]; a precision argument in that range is stored as it is. *)
Theorem precision_range (w : World float) :
  reachable w ->
  (forall l m, heap w !! l = Some m -> in_range (precision m) = true) /\
  (forall value unit' p,
     is_Measure value = false -> isNaN (Number value) = false ->
     in_range p = true ->
     exists m,
       Measure value unit' (VNumber p) w
       = (inr (length (heap w)), set_heap (fun h => h ++ [m]) w) /\
       precision m = p).
Proof.
  intros Hw. split.
  - intros l m Hl. apply (inv_heap w (reachable_Inv w Hw) l m Hl).
  - intros value unit' p Hv HN Hp.
    destruct (Measure_constructs w value unit' (VNumber p) Hw Hv HN)
      as (u & v & Hu & Hval & Hrun).
    eexists. split; [exact Hrun|]. cbn [precision].
    unfold default_precision. cbn [Number]. rewrite (in_range_not_NaN p Hp).
    by apply clamp_id.
Qed.

Lemma precision_range_witness :
  exists m,
    Measure (VNumber (lit 1)) None (VNumber (lit 7)) loaded
    = (inr 0%nat, set_heap (fun h => h ++ [m]) loaded) /\
    precision m = lit 7.
Proof.
  destruct (precision_range loaded reachable_loaded) as [_ H].
  apply (H (VNumber (lit 1)) None (lit 7)); [reflexivity | |]; vm_compute; reflexivity.
Defined.

(** C9, as it is stated, fails: the precision 2.5 is stored as 2.5, which is
    no integer. *)
Lemma fractional_precision_stored :
  Measure (VNumber (lit 1)) None (VNumber (numeral "2.5")) loaded
  = (inr 0%nat,
     set_heap (fun h => h ++ [{| val := lit 1; raw := lit 1; unit := nonUnited;
                                 precision := numeral "2.5" |}]) loaded) /\
  is_integer (numeral "2.5") = false.
Proof. split; vm_compute; reflexivity. Qed.

(** ** Operations on instances *)

(** C1, as the program has it: for two instances and a registered operation
    [fn], the method fails with the incompatibility error when the units are
    not comparable; otherwise it computes
    [fn(m1.raw * m1.unit.scale, m2.raw * m2.unit.scale) / m1.unit.scale], fails
    with the invalid-value error when that is NaN, and else returns a new
    instance with that [raw], the unit of the receiver and the smaller of the
    two precisions.  The world is plain and ordinary: the method is the
    property of its name that the instance has, and the unit of the receiver
    is of a type that compares. *)
Theorem method_result (w : World float) name' fn l1 l2 m1 m2 unit' precision' :
  reachable w ->
  plain w = true ->
  ordinary w = true ->
  ops w !! name' = Some fn ->
  heap w !! l1 = Some m1 ->
  heap w !! l2 = Some m2 ->
  let x := (fn (raw m1 * scale (unit m1)) (raw m2 * scale (unit m2))
            / scale (unit m1))%js in
  let run := invoke l1 name' (VMeasure l2) unit' precision' w in
  if negb (isComparable (unit m1) (unit m2)) then
    run = (inl (not_comparable (unit m1) (unit m2)), w)
  else if isNaN x then
    run = (inl (Err "A number is required, found [NaN]"), w)
  else
    exists m,
      run = (inr (length (heap w)), set_heap (fun h => h ++ [m]) w) /\
      raw m = x /\
      unit m = unit m1 /\
      precision m = Math_min (precision m1) (precision m2) /\
      Number_toPrecision (raw m) (precision m) = inr (val m).
Proof.
  intros Hw _ _ Hop Hl1 Hl2 x run. subst run.
  rewrite (invoke_registered w l1 name' fn) by done.
  rewrite (method_of_Measure w fn l1 m1 l2 m2) by done.
  unfold combine. fold x.
  destruct (negb (isComparable (unit m1) (unit m2))); [done|].
  destruct (isNaN x) eqn:Hx.
  - by apply Measure_number_NaN.
  - pose proof (reachable_Inv w Hw) as HI.
    destruct (Measure_number x (unit m1) (Math_min (precision m1) (precision m2)) w Hx)
      as (v & Hval & Hrun).
    { apply Math_min_in_range; [apply (inv_heap w HI l1 m1 Hl1) | apply (inv_heap w HI l2 m2 Hl2)]. }
    eexists. split; [exact Hrun|]. by repeat split.
Qed.

(** Two kilometers, then five hundred meters. *)
Definition two_km_500_m : World float :=
  (Measure (VNumber (lit 500)) (Some meter) VUndefined
     (Measure (VNumber (lit 2)) (Some kilometer) VUndefined loaded).2).2.

Lemma reachable_two_km_500_m : reachable two_km_500_m.
Proof.
  eapply reachable_step; [eapply reachable_step; [apply reachable_loaded|]|];
    apply step_Measure; intros u [= <-]; vm_compute; reflexivity.
Qed.

Lemma method_result_witness :
  exists m,
    invoke 0%nat "add" (VMeasure 1%nat) None VUndefined two_km_500_m
    = (inr 2%nat, set_heap (fun h => h ++ [m]) two_km_500_m) /\
    raw m = numeral "2.5" /\
    unit m = kilometer /\
    precision m = lit 15.
Proof.
  pose proof (method_result two_km_500_m "add" (fun a b => a + b)%js 0%nat 1%nat
                {| val := lit 2; raw := lit 2; unit := kilometer; precision := lit 15 |}
                {| val := lit 500; raw := lit 500; unit := meter; precision := lit 15 |}
                None VUndefined reachable_two_km_500_m) as H.
  cbv zeta in H. cbn [raw unit precision] in H.
  assert (negb (isComparable kilometer meter) = false) as Hc by reflexivity.
  assert (isNaN ((lit 2 * scale kilometer + lit 500 * scale meter) / scale kilometer)%js
          = false) as HN by (vm_compute; reflexivity).
  rewrite Hc, HN in H.
  destruct H as (m & Hrun & Hraw & Hunit & Hprec & _);
    try (vm_compute; reflexivity).
  exists m. split; [exact Hrun|]. split; [|split].
  - rewrite Hraw. vm_compute. reflexivity.
  - exact Hunit.
  - rewrite Hprec. vm_compute. reflexivity.
Defined.

(** Zero hours, twice. *)
Definition zero_hours : World float :=
  (Measure (VNumber (lit 0)) (Some hour) VUndefined
     (Measure (VNumber (lit 0)) (Some hour) VUndefined loaded).2).2.

(** C1, as it is stated, fails: the units of zero hours and zero hours are
    comparable and [divide] is registered, yet the method returns no
    instance: 0 / 0 is NaN, which [Measure] refuses. *)
Lemma divide_zero_by_zero :
  (exists fn m1 m2,
     ops zero_hours !! "divide" = Some fn /\
     heap zero_hours !! 0%nat = Some m1 /\
     heap zero_hours !! 1%nat = Some m2 /\
     isComparable (unit m1) (unit m2) = true) /\
  invoke 0%nat "divide" (VMeasure 1%nat) None VUndefined zero_hours
  = (inl (Err "A number is required, found [NaN]"), zero_hours).
Proof.
  split; [|vm_compute; reflexivity].
  exists (fun a b => a / b)%js,
         {| val := lit 0; raw := lit 0; unit := hour; precision := lit 15 |},
         {| val := lit 0; raw := lit 0; unit := hour; precision := lit 15 |}.
  repeat split; vm_compute; reflexivity.
Qed.

(** C10, as the program has it: a method called with one argument that is
    not a Measure constructs the argument, coerced to a number as [Measure]
    coerces its value, with the reserved unit.  When the
    argument coerces to NaN the call fails with the invalid-value error;
    otherwise, for a receiver whose unit is not of the reserved type, it
    fails with the incompatibility error.  The world is plain and ordinary. *)
Theorem method_bare_operand (w : World float) name' fn l m value :
  reachable w ->
  plain w = true ->
  ordinary w = true ->
  ops w !! name' = Some fn ->
  heap w !! l = Some m ->
  is_Measure value = false ->
  let x := match value with
           | VNumber v => v
           | VString s => StringToNumber s
           | VBoolean true => lit 1
           | VBoolean false | VNull => lit 0
           | VUndefined | VMeasure _ => NaN
           end in
  let run := invoke l name' value None VUndefined w in
  if isNaN x then
    run = (inl (Err "A number is required, found [NaN]"), w)
  else
    exists u other,
      lookup_unit w "_reserved" "nonUnited" = Some u /\
      raw other = x /\ unit other = u /\
      (type (unit m) <> "_reserved" ->
       run = (inl (not_comparable (unit m) u), set_heap (fun h => h ++ [other]) w)).
Proof.
  intros Hw _ _ Hop Hl Hv x run. subst run.
  assert (x = Number value) as -> by (subst x; by destruct value as [| |[|]| | |]).
  rewrite (invoke_registered w l name' fn) by done.
  destruct (isNaN (Number value)) eqn:HN.
  - by apply method_of_NaN.
  - pose proof (reachable_Inv w Hw) as HI.
    destruct (inv_nonUnited w HI) as [u Hu].
    destruct (method_of_value w fn l m value None VUndefined u Hl Hv HN Hu)
      as (v & Hval & Hrun).
    exists u, {| val := v; raw := Number value; unit := u;
                 precision := clamp (default_precision VUndefined) |}.
    split; [done|]. split; [reflexivity|]. split; [reflexivity|].
    intros Hty. rewrite Hrun. unfold combine. cbn [unit].
    destruct (inv_units w HI _ _ _ Hu) as (_ & Htu & _).
    unfold isComparable. rewrite Htu.
    destruct (String.eqb_spec "_reserved" (type (unit m))) as [E|_]; [by rewrite <- E in Hty|].
    reflexivity.
Qed.

(** Two kilometers. *)
Definition two_km : World float :=
  (Measure (VNumber (lit 2)) (Some kilometer) VUndefined loaded).2.

Lemma reachable_two_km : reachable two_km.
Proof.
  eapply reachable_step; [apply reachable_loaded|].
  apply step_Measure. intros u [= <-]. vm_compute. reflexivity.
Qed.

Lemma method_bare_operand_witness :
  (exists other,
     invoke 0%nat "add" (VNumber (lit 5)) None VUndefined two_km
     = (inl (Err "Unit kilometer is not comparable to nonUnited"),
        set_heap (fun h => h ++ [other]) two_km) /\
     raw other = lit 5 /\ unit other = nonUnited) /\
  (exists other,
     invoke 0%nat "add" (VString " 5e2 ") None VUndefined two_km
     = (inl (Err "Unit kilometer is not comparable to nonUnited"),
        set_heap (fun h => h ++ [other]) two_km) /\
     raw other = lit 500 /\ unit other = nonUnited).
Proof.
  assert (lookup_unit two_km "_reserved" "nonUnited" = Some nonUnited) as Hl
    by (vm_compute; reflexivity).
  split.
  - pose proof (method_bare_operand two_km "add" (fun a b => a + b)%js 0%nat
                  {| val := lit 2; raw := lit 2; unit := kilometer; precision := lit 15 |}
                  (VNumber (lit 5)) reachable_two_km) as H.
    cbv beta iota zeta in H. cbn [unit] in H.
    assert (isNaN (lit 5 : float) = false) as HN by (vm_compute; reflexivity).
    rewrite HN in H.
    destruct H as (u & other & Hu & Hraw & Hunit & Hrun);
      [vm_compute; reflexivity ..|].
    rewrite Hl in Hu. injection Hu as <-.
    exists other. split; [|by split].
    apply Hrun. by intros [=].
  - pose proof (method_bare_operand two_km "add" (fun a b => a + b)%js 0%nat
                  {| val := lit 2; raw := lit 2; unit := kilometer; precision := lit 15 |}
                  (VString " 5e2 ") reachable_two_km) as H.
    cbv beta iota zeta in H. cbn [unit] in H.
    assert (StringToNumber " 5e2 " = (lit 500 : float)) as HV
      by (vm_compute; reflexivity).
    rewrite HV in H.
    assert (isNaN (lit 500 : float) = false) as HN by (vm_compute; reflexivity).
    rewrite HN in H.
    destruct H as (u & other & Hu & Hraw & Hunit & Hrun);
      [vm_compute; reflexivity ..|].
    rewrite Hl in Hu. injection Hu as <-.
    exists other. split; [|by split].
    apply Hrun. by intros [=].
Defined.

(** C10, as it is stated, fails: the bare number NaN is no Measure and the
    receiver's unit is not of the reserved type, yet the call fails with the
    invalid-value error, not with the incompatibility error. *)
Lemma method_NaN_operand :
  (exists m, heap two_km !! 0%nat = Some m /\ type (unit m) <> "_reserved") /\
  invoke 0%nat "add" (VNumber NaN) None VUndefined two_km
  = (inl (Err "A number is required, found [NaN]"), two_km).
Proof.
  split; [|vm_compute; reflexivity].
  exists {| val := lit 2; raw := lit 2; unit := kilometer; precision := lit 15 |}.
  split; [vm_compute; reflexivity | by intros [=]].
Qed.

(** ** Conversion *)

(** C2, as the program has it: [as] with a unit of the instance's type,
    given or found by its name under that type, computes
    [raw * unit.scale / target.scale]; it fails with the invalid-value error
    when that is NaN, and else returns a new instance with that [raw], the
    target unit and the same precision.  It is not NaN when the two scales
    are positive and finite.  A name the type does not have is an
    unresolvable-unit error, a unit of another type an incompatibility
    error.  The world is plain and ordinary, and the name that is not found
    is none of a property the constructor of the type has. *)
Theorem Measure_as_result (w : World float) l m :
  reachable w ->
  plain w = true ->
  ordinary w = true ->
  heap w !! l = Some m ->
  (forall arg u,
     (arg = AUnit u /\ registered w u) \/
     (exists key, arg = AName key /\ lookup_unit w (type (unit m)) key = Some u) ->
     type u = type (unit m) ->
     let x := (raw m * scale (unit m) / scale u)%js in
     (valid_scale (scale (unit m)) = true -> valid_scale (scale u) = true ->
      isNaN x = false) /\
     if isNaN x then
       Measure_as l arg w = (inl (Err "A number is required, found [NaN]"), w)
     else
       exists m',
         Measure_as l arg w
         = (inr (length (heap w)), set_heap (fun h => h ++ [m']) w) /\
         raw m' = x /\
         unit m' = u /\
         precision m' = precision m /\
         Number_toPrecision (raw m') (precision m') = inr (val m')) /\
  (forall key,
     ordinary_name key = true ->
     lookup_unit w (type (unit m)) key = None ->
     Measure_as l (AName key) w
     = (inl (Err ("Unable to find unit [" +:+ key +:+ "]")), w)) /\
  (forall arg u,
     (arg = AUnit u /\ registered w u) \/
     (exists key, arg = AName key /\ lookup_unit w (type (unit m)) key = Some u) ->
     type u <> type (unit m) ->
     Measure_as l arg w = (inl (not_comparable (unit m) u), w)).
Proof.
  intros Hw _ _ Hl.
  pose proof (reachable_Inv w Hw) as HI.
  pose proof (inv_heap w HI l m Hl) as Hm.
  destruct (registered_type w (unit m) (unit_registered w m Hm)) as (ns & Hns & _).
  assert (forall arg u,
            (arg = AUnit u /\ registered w u) \/
            (exists key, arg = AName key /\
                         lookup_unit w (type (unit m)) key = Some u) ->
            Measure_as l arg w = convert m u w) as Hconv.
  { intros arg u [[-> _]|(key & -> & Hk)].
    - by apply Measure_as_unit.
    - rewrite (Measure_as_name w l m key ns Hl Hns).
      unfold lookup_unit in Hk. rewrite Hns in Hk. simpl in Hk. by rewrite Hk. }
  split; [|split].
  - intros arg u Harg Hty x. split.
    { intros Hs Hsu. apply div_not_NaN; [|done].
      apply mul_not_NaN; [apply Hm | done]. }
    rewrite (Hconv arg u Harg).
    unfold convert, isComparable. rewrite Hty, String.eqb_refl. cbn [negb].
    fold x. destruct (isNaN x) eqn:Hx.
    + by apply Measure_number_NaN.
    + destruct (Measure_number x u (precision m) w Hx) as (v & Hval & Hrun);
        [apply Hm|].
      eexists. split; [exact Hrun|]. by repeat split.
  - intros key _ Hk. rewrite (Measure_as_name w l m key ns Hl Hns).
    unfold lookup_unit in Hk. rewrite Hns in Hk. simpl in Hk. by rewrite Hk.
  - intros arg u Harg Hty. rewrite (Hconv arg u Harg).
    unfold convert, isComparable.
    destruct (String.eqb_spec (type u) (type (unit m))); done.
Qed.

Lemma Measure_as_result_witness :
  exists m',
    Measure_as 0%nat (AName "meter") two_km
    = (inr 1%nat, set_heap (fun h => h ++ [m']) two_km) /\
    raw m' = numeral "2000" /\ unit m' = meter /\ precision m' = lit 15.
Proof.
  destruct (Measure_as_result two_km 0%nat
              {| val := lit 2; raw := lit 2; unit := kilometer; precision := lit 15 |}
              reachable_two_km) as [H _]; try (vm_compute; reflexivity).
  cbn [raw unit precision] in H.
  destruct (H (AName "meter") meter) as [_ H'].
  - right. exists "meter". split; [reflexivity | vm_compute; reflexivity].
  - reflexivity.
  - cbv zeta in H'.
    assert (isNaN (lit 2 * scale kilometer / scale meter)%js = false) as HN
      by (vm_compute; reflexivity).
    rewrite HN in H'. destruct H' as (m' & Hrun & Hraw & Hunit & Hprec & _).
    exists m'. split; [exact Hrun|]. split; [|by split].
    rewrite Hraw. vm_compute. reflexivity.
Defined.

(** Zero meters, and a unit of distance whose scale is zero. *)
Definition zero_meters : World float :=
  (Measure (VNumber (lit 0)) (Some meter) VUndefined
     (Unit_register "distance" "point" "pt" (lit 0) loaded).2).2.

(** C2, as it is stated, fails: the unit [point] is of the type of the
    instance's unit and is found by its name, yet [as] returns no instance:
    0 * 1 / 0 is NaN, which [Measure] refuses. *)
Lemma as_to_zero_scale :
  (exists m u,
     heap zero_meters !! 0%nat = Some m /\
     lookup_unit zero_meters (type (unit m)) "point" = Some u /\
     type u = type (unit m)) /\
  Measure_as 0%nat (AName "point") zero_meters
  = (inl (Err "A number is required, found [NaN]"), zero_meters).
Proof.
  split; [|vm_compute; reflexivity].
  exists {| val := lit 0; raw := lit 0; unit := meter; precision := lit 15 |},
         (new_unit "distance" "point" "pt" (lit 0)).
  repeat split; vm_compute; reflexivity.
Qed.

(** ** Registration of units *)



(** ** Registration of operations *)





(** ** Converting there and back *)





(** * Further properties *)

(** ** What a program can rely on *)



(** An operation registered when instances exist is a method of them at
    once: when [register] returns, the instances have the method, and it
    combines them by the function registered.  The name is none of the
    program's own, and no operation has such a name. *)
Theorem registered_operation_is_mounted (w w' : World float) name' func l1 l2 m1 m2 :
  reachable w ->
  plain w = true ->
  is_own_name name' = false ->
  operations_register name' func w = (inr (), w') ->
  heap w !! l1 = Some m1 ->
  heap w !! l2 = Some m2 ->
  reachable w' /\
  heap w' = heap w /\
  invoke l1 name' (VMeasure l2) None VUndefined w' = combine func m1 m2 w'.
Proof.
  intros Hw _ _ Hrun Hl1 Hl2.
  assert (ops w !! name' = None) as Hfree.
  { rewrite operations_register_run in Hrun.
    destruct (ops w !! name') as [f|] eqn:E; [|done].
    by rewrite bool_decide_true in Hrun by eauto. }
  destruct (operations_register_ok w name' func Hfree)
    as (w1 & Hrun1 & _ & Hh & Ho & _).
  assert (w1 = w') as -> by congruence.
  assert (reachable w') as Hw'.
  { apply (reachable_step w); [done|].
    replace w' with (operations_register name' func w).2 by (by rewrite Hrun).
    apply step_operations_register. }
  split; [done|]. split; [done|].
  rewrite (invoke_registered w' l1 name' func); [|done|].
  - apply method_of_Measure; by rewrite Hh.
  - rewrite Ho. apply lookup_insert_eq.
Qed.

Lemma registered_operation_is_mounted_witness :
  let w' := (operations_register "pow" (fun a b => a * b)%js two_km_500_m).2 in
  heap w' = heap two_km_500_m /\
  exists m, invoke 0%nat "pow" (VMeasure 1%nat) None VUndefined w'
            = (inr 2%nat, set_heap (fun h => h ++ [m]) w') /\
            raw m = lit 1000.
Proof.
  intros w'.
  destruct (registered_operation_is_mounted two_km_500_m w' "pow" (fun a b => a * b)%js
              0%nat 1%nat
              {| val := lit 2; raw := lit 2; unit := kilometer; precision := lit 15 |}
              {| val := lit 500; raw := lit 500; unit := meter; precision := lit 15 |}
              reachable_two_km_500_m)
    as (_ & Hh & Hinv).
  - vm_compute. reflexivity.
  - reflexivity.
  - vm_compute. reflexivity.
  - vm_compute. reflexivity.
  - vm_compute. reflexivity.
  - split; [exact Hh|].
    exists {| val := lit 1000; raw := lit 1000; unit := kilometer; precision := lit 15 |}.
    split; [|reflexivity]. vm_compute. reflexivity.
Defined.

(** A unit registered when instances exist is one they convert to at once:
    when [Unit.register] returns, an instance of the unit's type converts to
    the unit by its name, with the scale that was given.  The names of the
    type and of the unit are ordinary ones, as are those registered before. *)
Theorem registered_unit_is_usable (w w' : World float) type' name' abbr' scale' l m :
  reachable w ->
  plain w = true ->
  ordinary w = true ->
  ordinary_type type' = true ->
  ordinary_name name' = true ->
  Unit_register type' name' abbr' scale' w = (inr (), w') ->
  heap w !! l = Some m ->
  type (unit m) = type' ->
  exists u,
    lookup_unit w' type' name' = Some u /\
    scale u = scale' /\
    heap w' !! l = Some m /\
    Measure_as l (AName name') w'
    = Measure (VNumber (raw m * scale (unit m) / scale')%js) (Some u)
              (VNumber (precision m)) w'.
Proof.
  intros Hw _ _ _ _ Hrun Hl Hty.
  destruct (Unit_register_cases type' name' abbr' scale' w)
    as [[e He]|(Ht & Hn & Hfree)]; [congruence|].
  destruct (Unit_register_ok type' name' abbr' scale' w Ht Hn Hfree)
    as (w1 & Hrun1 & Hlk & _ & _ & _ & Hh & _).
  assert (w1 = w') as -> by congruence.
  assert (lookup_unit w' type' name' = Some (new_unit type' name' abbr' scale')) as Hu.
  { rewrite Hlk. by rewrite decide_True. }
  exists (new_unit type' name' abbr' scale').
  split; [done|]. split; [done|]. rewrite Hh. split; [done|].
  unfold lookup_unit in Hu.
  destruct (units w' !! type') as [ns|] eqn:Hns; [|done]. simpl in Hu.
  rewrite (Measure_as_name w' l m name' ns); [|by rewrite Hh|by rewrite Hty].
  rewrite Hu. unfold convert, isComparable. cbn [type new_unit scale].
  by rewrite Hty, String.eqb_refl.
Qed.

Lemma registered_unit_is_usable_witness :
  let w' := (Unit_register "distance" "furlong" "fur" (numeral "201.168") two_km).2 in
  exists u,
    lookup_unit w' "distance" "furlong" = Some u /\
    scale u = numeral "201.168" /\
    Measure_as 0%nat (AName "furlong") w'
    = Measure (VNumber (lit 2 * scale kilometer / numeral "201.168")%js) (Some u)
              (VNumber (lit 15)) w'.
Proof.
  intros w'.
  destruct (registered_unit_is_usable two_km w' "distance" "furlong" "fur"
              (numeral "201.168") 0%nat
              {| val := lit 2; raw := lit 2; unit := kilometer; precision := lit 15 |}
              reachable_two_km)
    as (u & Hu & Hs & _ & Hrun).
  - vm_compute. reflexivity.
  - vm_compute. reflexivity.
  - reflexivity.
  - reflexivity.
  - vm_compute. reflexivity.
  - vm_compute. reflexivity.
  - reflexivity.
  - exists u. split; [exact Hu|]. split; [exact Hs|]. exact Hrun.
Defined.

(** Every instance there is holds a magnitude that is not NaN, a unit that
    the registry holds under the unit's own type and name, and as its value
    the magnitude rounded to its precision. *)
Theorem instances_are_sound (w : World float) l m :
  reachable w ->
  heap w !! l = Some m ->
  isNaN (raw m) = false /\
  lookup_unit w (type (unit m)) (name (unit m)) = Some (unit m) /\
  Number_toPrecision (raw m) (precision m) = inr (val m).
Proof.
  intros Hw Hl.
  destruct (inv_heap w (reachable_Inv w Hw) l m Hl) as [H1 _ H3].
  split; [done|]. split; [done|]. by apply (reachable_rounded w l).
Qed.

Lemma instances_are_sound_witness :
  lookup_unit two_km "distance" "kilometer" = Some kilometer /\
  Number_toPrecision (lit 2) (lit 15) = inr (lit 2 : float).
Proof.
  destruct (instances_are_sound two_km 0%nat
              {| val := lit 2; raw := lit 2; unit := kilometer; precision := lit 15 |}
              reachable_two_km) as (_ & H2 & H3).
  - vm_compute. reflexivity.
  - split; [exact H2 | exact H3].
Defined.

(** A unit found under a type and a name has that type and that name, and
    both are identifier-shaped. *)
Theorem units_are_filed (w : World float) t n u :
  reachable w ->
  lookup_unit w t n = Some u ->
  type u = t /\ name u = n /\ validNameRE t = true /\ validNameRE n = true.
Proof.
  intros Hw Hu.
  by destruct (inv_units w (reachable_Inv w Hw) t n u Hu) as (? & ? & ? & ?).
Qed.

Lemma units_are_filed_witness :
  type hour = "time" /\ name hour = "hour" /\
  validNameRE "time" = true /\ validNameRE "hour" = true.
Proof.
  apply (units_are_filed loaded "time" "hour" hour reachable_loaded).
  vm_compute. reflexivity.
Defined.

(** ** The built-in units and operations *)

Lemma valid_scales_loaded :
  map_Forall (fun _ ns => map_Forall (fun _ u => valid_scale (scale u) = true) ns)
             (units (loaded : World float)).
Proof. apply (bool_decide_unpack _). vm_compute. exact I. Qed.

(** Loading the module raises no error.  The units it registers have
    positive finite scales, and they and the four operations are there,
    unchanged, whatever calls follow, when no operation has a name of the
    program's own. *)
Theorem builtins_stay (w : World float) :
  reachable w ->
  plain w = true ->
  (module_body (empty_world : World float)).1 = inr () /\
  (forall t n u, lookup_unit loaded t n = Some u ->
     lookup_unit w t n = Some u /\ valid_scale (scale u) = true) /\
  ops w !! "add" = Some (fun a b => a + b)%js /\
  ops w !! "subtract" = Some (fun a b => a - b)%js /\
  ops w !! "multiply" = Some (fun a b => a * b)%js /\
  ops w !! "divide" = Some (fun a b => a / b)%js.
Proof.
  intros Hw _.
  destruct (steps_frame loaded w Inv_loaded Hw) as [Hu Ho _ _].
  split; [vm_compute; reflexivity|]. split.
  - intros t n u Hl. split; [by apply Hu|].
    unfold lookup_unit in Hl.
    destruct (units loaded !! t) as [ns|] eqn:Ht; [|done]. simpl in Hl.
    by apply (valid_scales_loaded t ns Ht n u).
  - repeat split; apply Ho; vm_compute; reflexivity.
Qed.

Lemma builtins_stay_witness :
  lookup_unit two_km_500_m "distance" "mile"
  = Some (new_unit "distance" "mile" "mi" (numeral "1609.344")) /\
  valid_scale (numeral "1609.344" : float) = true.
Proof.
  destruct (builtins_stay two_km_500_m reachable_two_km_500_m) as (_ & H & _);
    [vm_compute; reflexivity|].
  apply (H "distance" "mile" (new_unit "distance" "mile" "mi" (numeral "1609.344"))).
  vm_compute. reflexivity.
Defined.

(** A Measure constructed without a unit has the reserved unit that the
    module registers, of scale 1: no call can put another in its place. *)
Theorem Measure_default_unit (w : World float) value precision' :
  reachable w ->
  plain w = true ->
  is_Measure value = false ->
  isNaN (Number value) = false ->
  exists m,
    Measure value None precision' w
    = (inr (length (heap w)), set_heap (fun h => h ++ [m]) w) /\
    unit m = nonUnited /\
    raw m = Number value.
Proof.
  intros Hw _ Hv HN.
  destruct (Measure_constructs w value None precision' Hw Hv HN)
    as (u & v & Hu & _ & Hrun).
  eexists. split; [exact Hrun|]. split; [|done]. cbn [unit].
  destruct (steps_frame loaded w Inv_loaded Hw) as [Hk _ _ _].
  assert (lookup_unit w "_reserved" "nonUnited" = Some nonUnited) as Hd.
  { apply Hk. vm_compute. reflexivity. }
  unfold unit_or_default in Hu. unfold lookup_unit in Hd. congruence.
Qed.

Lemma Measure_default_unit_witness :
  exists m,
    Measure (VString "7") None VUndefined two_km
    = (inr 1%nat, set_heap (fun h => h ++ [m]) two_km) /\
    unit m = nonUnited /\
    raw m = lit 7.
Proof.
  destruct (Measure_default_unit two_km (VString "7") VUndefined reachable_two_km)
    as (m & Hrun & Hu & Hraw).
  - vm_compute. reflexivity.
  - reflexivity.
  - vm_compute. reflexivity.
  - exists m. split; [exact Hrun|]. split; [exact Hu|].
    rewrite Hraw. vm_compute. reflexivity.
Defined.

(** [Measure] has a property for every unit type whose name does not start
    with an underscore, and the program defines none that starts with one:
    the reserved type is not reached through [Measure].  The types have
    ordinary names, and the properties that [Measure] has as every function
    has them, [__proto__] among them, are not meant. *)
Theorem Measure_exposes_types (w : World float) :
  reachable w ->
  ordinary w = true ->
  (forall t, is_Some (units w !! t) -> starts_with_underscore t = false ->
     t ∈ Measure_props w) /\
  (forall t, starts_with_underscore t = true -> is_function_name t = false ->
     t ∉ Measure_props w).
Proof.
  intros Hw _. destruct (reachable_exposes w Hw) as [H1 H2].
  split; [done|]. intros t Hu _ Hin. apply H1 in Hin. congruence.
Qed.

Lemma Measure_exposes_types_witness :
  let w := (Unit_register "mass" "gram" "g" (numeral "0.001") loaded).2 in
  "mass" ∈ Measure_props w /\ "_reserved" ∉ Measure_props w.
Proof.
  intros w.
  destruct (Measure_exposes_types w) as [H1 H2].
  - eapply reachable_step; [apply reachable_loaded | apply step_Unit_register].
  - vm_compute. reflexivity.
  - split.
    + apply H1; [|reflexivity]. vm_compute. eauto.
    + apply H2; reflexivity.
Defined.

(** ** Values that are no numbers *)

(** The values that are no number and that [Number] turns into zero:
    [null], [false], and a text that is empty or white space, which is what
    [trim] leaves nothing of: the characters of [white_space]. *)
Definition coerces_to_zero (v : JSValue float) : bool :=
  match v with
  | VNull | VBoolean false => true
  | VString s => String.eqb (trim s) ""
  | _ => false
  end.

Lemma Number_coerces_to_zero v : coerces_to_zero v = true -> Number v = lit 0.
Proof.
  destruct v as [| |[|]|x|s|l]; try done. simpl.
  intros Hs%String.eqb_eq. unfold StringToNumber. cbv zeta. by rewrite Hs.
Qed.

(** Values that are no number and coerce to one are accepted: [null],
    [false] and an empty text make a Measure of zero, and [true] makes a
    Measure of one. *)
Theorem Measure_of_empty_value (w : World float) value unit' precision' :
  reachable w ->
  plain w = true ->
  coerces_to_zero value = true \/ value = VBoolean true ->
  exists m,
    Measure value unit' precision' w
    = (inr (length (heap w)), set_heap (fun h => h ++ [m]) w) /\
    raw m = (if coerces_to_zero value then lit 0 else lit 1) /\
    val m = raw m.
Proof.
  intros Hw _ Hv.
  assert (is_Measure value = false) as HM.
  { destruct Hv as [Hv| ->]; [by destruct value|done]. }
  assert (Number value = if coerces_to_zero value then lit 0 else lit 1) as HNum.
  { destruct Hv as [Hv| ->]; [|done]. rewrite Hv. by apply Number_coerces_to_zero. }
  assert (isNaN (Number value) = false) as HN.
  { rewrite HNum. destruct (coerces_to_zero value); vm_compute; reflexivity. }
  destruct (Measure_constructs w value unit' precision' Hw HM HN)
    as (u & v & Hu & Hval & Hrun).
  eexists. split; [exact Hrun|]. cbn [raw val]. split; [done|].
  rewrite HNum in *.
  assert (in_range (clamp (default_precision precision')) = true) as Hp
    by apply clamp_in_range, default_precision_not_NaN.
  apply in_range_classify in Hp as (n & d & Hp & H1 & H2).
  revert Hval. unfold Number_toPrecision. rewrite Hp.
  assert (1 <= truncate false n d <= 15)%Z as Ht.
  { unfold truncate, signed. rewrite N2Z.inj_div. simpl Z.of_N.
    split; [apply Z.div_le_lower_bound | apply Z.div_le_upper_bound]; lia. }
  destruct (truncate false n d) as [|p|p]; [lia| |lia].
  destruct (coerces_to_zero value).
  - assert (classify (lit 0 : float) = CFin false 0 1) as -> by (vm_compute; reflexivity).
    destruct ((1 <=? Z.pos p) && (Z.pos p <=? 100))%Z; [|done]. by intros [= <-].
  - do 4 (try destruct p as [p|p|]); try lia; vm_compute; by intros [= <-].
Qed.

Lemma Measure_of_empty_value_witness :
  let blank :=
    bytes [9; 10; 11; 12; 13; 32; 194; 160; 225; 154; 128;
           226; 128; 128; 226; 128; 129; 226; 128; 130; 226; 128; 131;
           226; 128; 132; 226; 128; 133; 226; 128; 134; 226; 128; 135;
           226; 128; 136; 226; 128; 137; 226; 128; 138;
           226; 128; 168; 226; 128; 169; 226; 128; 175; 226; 129; 159;
           227; 128; 128; 239; 187; 191]%N in
  exists m,
    Measure (VString blank) None VUndefined loaded
    = (inr 0%nat, set_heap (fun h => h ++ [m]) loaded) /\
    raw m = lit 0 /\ val m = lit 0.
Proof.
  intros blank.
  destruct (Measure_of_empty_value loaded (VString blank) None VUndefined reachable_loaded)
    as (m & Hrun & Hraw & Hval).
  - vm_compute. reflexivity.
  - left. reflexivity.
  - exists m. split; [exact Hrun|]. rewrite Hval. split; exact Hraw.
Defined.

(** The same values given as the precision are numbers too, below the
    range: the precision is 1 then, not the 15 of a precision left out. *)
Theorem Measure_of_empty_precision (w : World float) value unit' precision' :
  reachable w ->
  plain w = true ->
  is_Measure value = false ->
  isNaN (Number value) = false ->
  coerces_to_zero precision' = true \/ precision' = VBoolean true ->
  exists m,
    Measure value unit' precision' w
    = (inr (length (heap w)), set_heap (fun h => h ++ [m]) w) /\
    precision m = lit 1.
Proof.
  intros Hw _ Hv HN Hp.
  destruct (Measure_constructs w value unit' precision' Hw Hv HN)
    as (u & v & Hu & _ & Hrun).
  eexists. split; [exact Hrun|]. cbn [precision].
  unfold default_precision.
  destruct Hp as [Hp| ->]; [|vm_compute; reflexivity].
  rewrite (Number_coerces_to_zero precision' Hp). vm_compute. reflexivity.
Qed.

Lemma Measure_of_empty_precision_witness :
  let blank := bytes [239; 187; 191; 32; 226; 128; 175]%N in
  exists m,
    Measure (VNumber (numeral "3.14159")) None (VString blank) loaded
    = (inr 0%nat, set_heap (fun h => h ++ [m]) loaded) /\
    precision m = lit 1.
Proof.
  intros blank.
  apply (Measure_of_empty_precision loaded (VNumber (numeral "3.14159")) None
           (VString blank) reachable_loaded).
  - vm_compute. reflexivity.
  - reflexivity.
  - vm_compute. reflexivity.
  - left. vm_compute. reflexivity.
Defined.

(** ** Conversion by name *)

(** [as] with a name looks the name up among the units of the instance's own
    type.  A unit found there is of that type: the conversion to it is made,
    as if the unit itself were given, and no incompatibility error is
    raised.  A unit that only another type has under the name is not found,
    and the error is the unresolvable-unit error; given itself, it is
    refused with the incompatibility error.  The world is plain and
    ordinary. *)
Theorem Measure_as_name_in_type (w : World float) l m key :
  reachable w ->
  plain w = true ->
  ordinary w = true ->
  heap w !! l = Some m ->
  (forall u, lookup_unit w (type (unit m)) key = Some u ->
     type u = type (unit m) /\
     Measure_as l (AName key) w = Measure_as l (AUnit u) w /\
     Measure_as l (AName key) w
     = Measure (VNumber (raw m * scale (unit m) / scale u)%js) (Some u)
               (VNumber (precision m)) w) /\
  (forall t u, lookup_unit w t key = Some u ->
     lookup_unit w (type (unit m)) key = None ->
     Measure_as l (AName key) w
     = (inl (Err ("Unable to find unit [" +:+ key +:+ "]")), w) /\
     Measure_as l (AUnit u) w = (inl (not_comparable (unit m) u), w)).
Proof.
  intros Hw _ _ Hl.
  pose proof (reachable_Inv w Hw) as HI.
  pose proof (inv_heap w HI l m Hl) as Hm.
  destruct (registered_type w (unit m) (unit_registered w m Hm)) as (ns & Hns & _).
  rewrite (Measure_as_name w l m key ns Hl Hns).
  split.
  - intros u Hk. destruct (inv_units w HI _ _ _ Hk) as (_ & Ht & _).
    unfold lookup_unit in Hk. rewrite Hns in Hk. simpl in Hk. rewrite Hk.
    rewrite (Measure_as_unit w l m u Hl).
    split; [done|]. split; [done|].
    unfold convert, isComparable. by rewrite Ht, String.eqb_refl.
  - intros t u Hu Hk. destruct (inv_units w HI _ _ _ Hu) as (_ & Ht & _).
    split.
    + unfold lookup_unit in Hk. rewrite Hns in Hk. simpl in Hk. by rewrite Hk.
    + rewrite (Measure_as_unit w l m u Hl). unfold convert, isComparable.
      destruct (String.eqb_spec (type u) (type (unit m))) as [He|]; [|done].
      rewrite Ht in He. subst t. congruence.
Qed.

(** Two hours have no meter, though the distances have. *)
Definition two_hours : World float :=
  (Measure (VNumber (lit 2)) (Some hour) VUndefined loaded).2.

Lemma reachable_two_hours : reachable two_hours.
Proof.
  eapply reachable_step; [apply reachable_loaded|].
  apply step_Measure; intros u [= <-]; vm_compute; reflexivity.
Qed.

Lemma Measure_as_name_in_type_witness :
  Measure_as 0%nat (AName "meter") two_hours
  = (inl (Err "Unable to find unit [meter]"), two_hours) /\
  Measure_as 0%nat (AUnit meter) two_hours
  = (inl (Err "Unit hour is not comparable to meter"), two_hours).
Proof.
  destruct (Measure_as_name_in_type two_hours 0%nat
              {| val := lit 2; raw := lit 2; unit := hour; precision := lit 15 |}
              "meter" reachable_two_hours) as [_ H].
  - vm_compute. reflexivity.
  - vm_compute. reflexivity.
  - vm_compute. reflexivity.
  - apply (H "distance" meter); vm_compute; reflexivity.
Defined.

(** ** The operand of a method *)

(** A method takes the arguments of [Measure]: called with a value that is
    no Measure, a unit and a precision, it does what it does on the Measure
    constructed from the three. *)
Theorem method_constructs_operand (w : World float) l name' value unit' precision' :
  reachable w ->
  plain w = true ->
  is_Some (ops w !! name') ->
  invoke l name' value unit' precision' w
  = (l' <- Measure value unit' precision' ;;
     invoke l name' (VMeasure l') None VUndefined) w.
Proof.
  intros Hw _ Hop. apply invoke_constructs.
  by rewrite (inv_prototype w (reachable_Inv w Hw)).
Qed.

Lemma method_constructs_operand_witness :
  exists m,
    invoke 0%nat "add" (VNumber (lit 500)) (Some meter) VUndefined two_km
    = (inr 2%nat,
       set_heap (fun h => h ++ [m])
         (Measure (VNumber (lit 500)) (Some meter) VUndefined two_km).2) /\
    raw m = numeral "2.5".
Proof.
  exists {| val := numeral "2.5"; raw := numeral "2.5"; unit := kilometer;
            precision := lit 15 |}.
  split; [|reflexivity].
  rewrite (method_constructs_operand two_km 0%nat "add" (VNumber (lit 500)) (Some meter)
             VUndefined reachable_two_km).
  - vm_compute. reflexivity.
  - vm_compute. reflexivity.
  - vm_compute. eauto.
Defined.

(** ** The registry of operations *)

(** [getOperations] returns the operations registered so far and changes
    nothing.  A name it has is one [register] refuses; a name it does not
    have is one [register] accepts, and [getOperations] returns the function
    under the name from then on.  The names are none of the program's own. *)
Theorem getOperations_registry (w : World float) name' func :
  reachable w ->
  plain w = true ->
  is_own_name name' = false ->
  exists o,
    operations_getOperations w = (inr o, w) /\
    match o !! name' with
    | Some _ =>
        operations_register name' func w
        = (inl (Err ("Operation [" +:+ name' +:+ "] is already registered")), w)
    | None =>
        exists w',
          operations_register name' func w = (inr (), w') /\
          operations_getOperations w' = (inr (<[name' := func]> o), w') /\
          forall w'', rtc step w' w'' -> plain w'' = true ->
            exists o', operations_getOperations w'' = (inr o', w'') /\
                       o' !! name' = Some func
    end.
Proof.
  intros Hw _ _. exists (ops w). split; [done|].
  destruct (ops w !! name') as [f|] eqn:Hop.
  - rewrite operations_register_run. by rewrite bool_decide_true by (by rewrite Hop).
  - destruct (operations_register_ok w name' func Hop)
      as (w' & Hrun & _ & _ & Ho & _).
    exists w'. split; [done|]. split.
    { unfold operations_getOperations, bind, get, ret. by rewrite Ho. }
    intros w'' Hsteps _.
    assert (Inv w') as HI'.
    { replace w' with (operations_register name' func w).2 by (by rewrite Hrun).
      apply operations_register_Inv, reachable_Inv, Hw. }
    destruct (steps_frame w' w'' HI' Hsteps) as [_ Hk _ _].
    exists (ops w''). split; [done|]. apply Hk. rewrite Ho. apply lookup_insert_eq.
Qed.

Lemma getOperations_registry_witness :
  exists o,
    operations_getOperations two_km = (inr o, two_km) /\
    operations_register "add" (fun a b => a * b)%js two_km
    = (inl (Err "Operation [add] is already registered"), two_km).
Proof.
  destruct (getOperations_registry two_km "add" (fun a b => a * b)%js reachable_two_km)
    as (o & Hget & H).
  { vm_compute. reflexivity. }
  { reflexivity. }
  exists o. split; [exact Hget|].
  cbv [operations_getOperations bind get ret] in Hget.
  assert (o = ops two_km) as -> by congruence.
  assert (ops two_km !! "add" = Some (fun a b => a + b)%js) as Hadd
    by (vm_compute; reflexivity).
  match type of H with
  | match ?x with _ => _ end => destruct x as [f|] eqn:E
  end; [exact H|].
  pose proof (eq_trans (eq_sym E) Hadd) as Hne. discriminate Hne.
Defined.

(** ** Scaled quotients, in binary64 *)

(** [Measure(10, Unit.time.hour).divide(Measure(2, Unit.time.hour))]: the
    quotient of the two magnitudes in seconds is 5, and the method divides it
    by the scale of the receiver's unit: [raw] is 5 / 3600. *)
Example ten_hours_divide_two_hours :
  let w := (Measure (VNumber (lit 2)) (Some hour) VUndefined
              (Measure (VNumber (lit 10)) (Some hour) VUndefined loaded).2).2 in
  invoke 0%nat "divide" (VMeasure 1%nat) None VUndefined w
  = (inr 2%nat,
     set_heap (fun h => h ++ [{| val := numeral "0.00138888888888889";
                                 raw := (lit 5 / lit 3600)%js; unit := hour;
                                 precision := lit 15 |}]) w).
Proof. vm_compute. reflexivity. Qed.

End Binary64.
